(** * Anonymity setup tool: the menu loop and its actions

    A shallow embedding of [torlinux.py] and [torwin.py].  Both scripts are a
    curses menu over five actions that run external programs, write one
    file and print coloured messages.  Everything the scripts do to the
    outside is recorded as an [event]; everything the outside answers
    (exit statuses, captured output, whether a file can be written) comes
    from a [World] oracle that sees the events so far.  Python exceptions
    are the [Raise] results of a small state-and-error monad. *)

From Stdlib Require Import ZArith List String Ascii Bool Lia.
Import ListNotations.

Open Scope string_scope.
Open Scope Z_scope.

(** ** Runtime: events, exceptions, the outside world *)

(** The three colour names the scripts pass to [termcolor.colored]. *)
Inductive colour := yellow | green | red.

Inductive event :=
| Print (text : string) (color : option colour)
| Run (argv : list string) (returncode : Z)
| Popen (argv : list string)
| Sleep (secs : Z)
| FileOpen (path : string) (mode : string)
| FileWrite (path : string) (data : string)
| HttpGet (url : string)
| ExtractAll (archive : string) (dest : string)
| CursSet (visibility : Z)
| StartColor
| InitPair (pair fg bg : Z)
| Clear
| Refresh
| Addstr (y x : Z) (text : string) (attr : Z)
| Getch (key : Z).

Inductive exn :=
| UnboundLocalError (name : string)
| CalledProcessError (returncode : Z) (cmd : list string)
| OSError (filename : string)
| RequestException (url : string)
| BadZipFile (path : string).

(** What the environment answers, given the events so far.
    - [spawn h argv]: [None] when the program cannot be started, otherwise
      its exit status and what it wrote to standard output;
    - [can_open], [can_write]: whether [open(path, mode)] and [f.write(data)]
      succeed;
    - [fetch h url]: the chunks of the body the server sends, [None] when
      [requests.get] raises;
    - [stream_breaks h url]: whether the connection breaks when
      [iter_content] reads on (the body is streamed, so this can happen
      after part of it was written);
    - [can_extract]: whether the archive opens and unpacks. *)
Record World := {
  spawn : list event -> list string -> option (Z * string);
  can_open : list event -> string -> string -> bool;
  can_write : list event -> string -> string -> bool;
  fetch : list event -> string -> option (list string);
  stream_breaks : list event -> string -> bool;
  can_extract : list event -> string -> string -> bool
}.

(** The interpreter state the scripts touch: the module-level name
    [current_row] (only [torlinux.py] binds it) and the trace of effects. *)
Record machine := {
  global_current_row : option Z;
  trace : list event
}.

Definition boot : machine := {| global_current_row := None; trace := [] |}.

Definition log (e : event) (m : machine) : machine :=
  {| global_current_row := global_current_row m; trace := (trace m ++ [e])%list |}.

Inductive result (A : Type) :=
| Ok (a : A)
| Raise (e : exn).
Arguments Ok {A} a.
Arguments Raise {A} e.

Definition M (A : Type) : Type := World -> machine -> result A * machine.

Definition ret {A} (a : A) : M A := fun _ m => (Ok a, m).

Definition raise {A} (e : exn) : M A := fun _ m => (Raise e, m).

Definition bind {A B} (c : M A) (k : A -> M B) : M B :=
  fun w m =>
    match c w m with
    | (Ok a, m') => k a w m'
    | (Raise e, m') => (Raise e, m')
    end.

Notation "x <- c ;; k" := (bind c (fun x => k))
  (at level 61, c at next level, right associativity).
Notation "c ;; k" := (bind c (fun _ => k))
  (at level 61, right associativity).

Definition emit (e : event) : M unit := fun _ m => (Ok tt, log e m).

(** [print(colored(text, color))] *)
Definition print_colored (text : string) (c : colour) : M unit :=
  emit (Print text (Some c)).

(** [print(text)] *)
Definition print (text : string) : M unit := emit (Print text None).

(** [time.sleep(secs)] *)
Definition sleep (secs : Z) : M unit := emit (Sleep secs).

(** [subprocess.run(argv, check=check)]: waits for the program and returns
    its exit status and captured output; with [check] a non-zero status
    raises [CalledProcessError]. *)
Definition subprocess_run (argv : list string) (check : bool) : M (Z * string) :=
  fun w m =>
    match spawn w (trace m) argv with
    | None => (Raise (OSError (hd "" argv)), m)
    | Some (returncode, stdout) =>
        let m' := log (Run argv returncode) m in
        if check && negb (returncode =? 0)
        then (Raise (CalledProcessError returncode argv), m')
        else (Ok (returncode, stdout), m')
    end.

(** [subprocess.Popen(argv)]: starts the program and does not wait. *)
Definition subprocess_Popen (argv : list string) : M unit :=
  fun w m =>
    match spawn w (trace m) argv with
    | None => (Raise (OSError (hd "" argv)), m)
    | Some _ => (Ok tt, log (Popen argv) m)
    end.

(** [open(path, mode)] *)
Definition open (path mode : string) : M unit :=
  fun w m =>
    if can_open w (trace m) path mode
    then (Ok tt, log (FileOpen path mode) m)
    else (Raise (OSError path), m).

(** [f.write(data)] on the file opened at [path] *)
Definition write (path data : string) : M unit :=
  fun w m =>
    if can_write w (trace m) path data
    then (Ok tt, log (FileWrite path data) m)
    else (Raise (OSError path), m).

(** Python's [needle in haystack] on [str]: substring containment. *)
Fixpoint str_in (needle haystack : string) : bool :=
  String.prefix needle haystack ||
  match haystack with
  | EmptyString => false
  | String _ rest => str_in needle rest
  end.

Definition LF : string := String (ascii_of_nat 10) EmptyString.

(** ** torlinux.py: the actions *)

Module Torlinux.

Definition apt_update : list string := ["sudo"; "apt"; "update"].
Definition apt_install : list string :=
  ["sudo"; "apt"; "install"; "-y"; "tor"; "proxychains4"].
Definition systemctl_start : list string := ["sudo"; "systemctl"; "start"; "tor"].
Definition systemctl_stop : list string := ["sudo"; "systemctl"; "stop"; "tor"].
Definition check_tor : list string :=
  ["proxychains4"; "curl"; "https://check.torproject.org/"].

Definition install_packages : M unit :=
  print_colored "Updating package list and installing Tor and Proxychains..." yellow ;;
  subprocess_run apt_update true ;;
  subprocess_run apt_install true ;;
  print_colored "Installation complete." green.

(** The triple-quoted literal of [configure_proxychains], line by line: it
    starts with a newline and ends with four blanks. *)
Definition proxychains_conf : string :=
  LF ++
  "dynamic_chain" ++ LF ++
  "proxy_dns" ++ LF ++
  "tcp_read_time_out 15000" ++ LF ++
  "tcp_connect_time_out 8000" ++ LF ++
  LF ++
  "[ProxyList]" ++ LF ++
  "socks5  127.0.0.1 9050" ++ LF ++
  "    ".

Definition conf_path : string := "/etc/proxychains4.conf".

Definition configure_proxychains : M unit :=
  print_colored "Configuring Proxychains..." yellow ;;
  open conf_path "w" ;;
  write conf_path proxychains_conf ;;
  print_colored "Proxychains configuration complete." green.

Definition start_tor : M unit :=
  print_colored "Starting Tor service..." yellow ;;
  subprocess_run systemctl_start true ;;
  sleep 10 ;;
  print_colored "Tor service started." green.

Definition stop_tor : M unit :=
  print_colored "Stopping Tor service..." yellow ;;
  subprocess_run systemctl_stop true ;;
  print_colored "Tor service stopped." green.

Definition verify_tor : M unit :=
  print_colored "Verifying Tor connection..." yellow ;;
  result <- subprocess_run check_tor false ;;
  if str_in "Congratulations. This browser is configured to use Tor." (snd result)
  then print_colored "Tor is successfully configured!" green
  else (print_colored "Tor configuration failed." red ;;
        print (snd result)).

Definition menu : list string :=
  [ "Install Tor and Proxychains";
    "Configure Proxychains";
    "Start Tor";
    "Stop Tor";
    "Verify Tor Connection";
    "Exit" ].

End Torlinux.

(** ** torwin.py: the actions *)

Module Torwin.

Definition TOR_URL : string :=
  "https://www.torproject.org/dist/torbrowser/11.0.1/tor-win64-0.4.6.8.zip".
Definition PROXIFIER_URL : string :=
  "https://www.proxifier.com/download/ProxifierSetup.exe".
Definition TOR_ZIP_PATH : string := "tor.zip".
Definition PROXIFIER_PATH : string := "ProxifierSetup.exe".
Definition TOR_INSTALL_PATH : string := "C:\Tor".

(** [requests.get(url, stream=True)]: the response, with the chunks its
    body will deliver; nothing of the body is read yet. *)
Definition requests_get (url : string) : M (list string) :=
  fun w m =>
    match fetch w (trace m) url with
    | None => (Raise (RequestException url), m)
    | Some chunks => (Ok chunks, log (HttpGet url) m)
    end.

(** One step of [response.iter_content(chunk_size=8192)]: reading on from
    the connection, which may have broken. *)
Definition next_chunk (url : string) : M unit :=
  fun w m =>
    if stream_breaks w (trace m) url
    then (Raise (RequestException url), m)
    else (Ok tt, m).

(** [for chunk in response.iter_content(...): f.write(chunk)]: each chunk
    is read from the connection and then written; the last read finds
    the end of the body. *)
Fixpoint write_chunks (url dest_path : string) (chunks : list string) : M unit :=
  match chunks with
  | [] => next_chunk url
  | chunk :: chunks' =>
      next_chunk url ;;
      write dest_path chunk ;;
      write_chunks url dest_path chunks'
  end.

Definition download_file (url dest_path : string) : M unit :=
  chunks <- requests_get url ;;
  open dest_path "wb" ;;
  write_chunks url dest_path chunks.

Definition extract_zip (file_path extract_to : string) : M unit :=
  fun w m =>
    if can_extract w (trace m) file_path extract_to
    then (Ok tt, log (ExtractAll file_path extract_to) m)
    else (Raise (BadZipFile file_path), m).

Definition install_tor : M unit :=
  print_colored "Downloading Tor..." yellow ;;
  download_file TOR_URL TOR_ZIP_PATH ;;
  print_colored "Extracting Tor..." yellow ;;
  extract_zip TOR_ZIP_PATH TOR_INSTALL_PATH ;;
  print_colored "Tor installation complete." green.

Definition proxifier_setup : list string := [PROXIFIER_PATH; "/silent"].

Definition install_proxifier : M unit :=
  print_colored "Downloading Proxifier..." yellow ;;
  download_file PROXIFIER_URL PROXIFIER_PATH ;;
  print_colored "Installing Proxifier..." yellow ;;
  subprocess_run proxifier_setup false ;;
  print_colored "Proxifier installation complete." green.

(** [os.path.join] of the Windows interpreter, on relative components. *)
Definition path_join (parts : list string) : string := String.concat "\" parts.

Definition tor_exe : string := path_join [TOR_INSTALL_PATH; "Tor"; "tor.exe"].

Definition start_tor : M unit :=
  subprocess_Popen [tor_exe] ;;
  print_colored "Starting Tor..." yellow ;;
  sleep 10 ;;
  print_colored "Tor started." green.

Definition taskkill : list string := ["taskkill"; "/F"; "/IM"; "tor.exe"].

Definition stop_tor : M unit :=
  subprocess_run taskkill false ;;
  print_colored "Tor stopped." green.

Definition proxifier_config_path : string := "C:\Path\To\ProxifierConfig.pxw".

Definition proxifier_addrule : list string :=
  ["ProxifierCLI.exe"; "addrule"; "127.0.0.1:9050"; "-config"; proxifier_config_path].

Definition configure_proxifier : M unit :=
  print_colored "Configuring Proxifier..." yellow ;;
  subprocess_run proxifier_addrule false ;;
  print_colored "Proxifier configured." green.

Definition check_tor : list string :=
  ["curl"; "--socks5"; "127.0.0.1:9050"; "https://check.torproject.org/"].

Definition verify_tor : M unit :=
  print_colored "Verifying Tor connection..." yellow ;;
  result <- subprocess_run check_tor false ;;
  if str_in "Congratulations. This browser is configured to use Tor." (snd result)
  then print_colored "Tor is successfully configured!" green
  else (print_colored "Tor configuration failed." red ;;
        print (snd result)).

Definition menu : list string :=
  [ "Install Tor and Proxifier";
    "Configure Proxifier";
    "Start Tor";
    "Stop Tor";
    "Verify Tor Connection";
    "Exit" ].

End Torwin.

(** ** The menu loop, shared text of both scripts *)

Inductive variant := Linux | Windows.

Definition menu (v : variant) : list string :=
  match v with
  | Linux => Torlinux.menu
  | Windows => Torwin.menu
  end.

(** [len(menu)] *)
Definition entryCount (v : variant) : Z := Z.of_nat (List.length (menu v)).

(** Key codes and attributes of ncurses, as [curses] exports them. *)
Definition KEY_DOWN : Z := 258.
Definition KEY_UP : Z := 259.
Definition KEY_ENTER : Z := 343.
Definition A_UNDERLINE : Z := 131072.
Definition A_BOLD : Z := 2097152.
Definition color_pair (n : Z) : Z := Z.shiftl n 8.
Definition COLOR_BLACK : Z := 0.
Definition COLOR_WHITE : Z := 7.

(** Reading a local name: an unbound one raises. *)
Definition load (name : string) (binding : option Z) : M Z :=
  match binding with
  | Some value => ret value
  | None => raise (UnboundLocalError name)
  end.

(** [for idx, item in enumerate(menu)]: the entry at [current_row] is drawn
    with colour pair 1, the others plainly. *)
Fixpoint draw_entries (current_row : option Z) (idx : Z) (items : list string)
  : M unit :=
  match items with
  | [] => ret tt
  | item :: items' =>
      row <- load "current_row" current_row ;;
      (if idx =? row
       then emit (Addstr (idx + 2) 0 item (color_pair 1))
       else emit (Addstr (idx + 2) 0 item 0)) ;;
      draw_entries current_row (idx + 1) items'
  end.

(** The top of the [while] body, up to [stdscr.refresh()]. *)
Definition render (v : variant) (current_row : option Z) : M unit :=
  emit Clear ;;
  emit (Addstr 0 0 "Anonymity Setup Tool" (Z.lor A_BOLD A_UNDERLINE)) ;;
  emit (Addstr 1 0 "Use arrow keys to navigate and Enter to select." 0) ;;
  draw_entries current_row 0 (menu v) ;;
  emit Refresh.

(** The [if current_row == 0: ... elif current_row == 4: ...] chain. *)
Definition dispatch (v : variant) (row : Z) : M unit :=
  if row =? 0 then
    match v with Linux => Torlinux.install_packages | Windows => Torwin.install_tor end
  else if row =? 1 then
    match v with Linux => Torlinux.configure_proxychains | Windows => Torwin.configure_proxifier end
  else if row =? 2 then
    match v with Linux => Torlinux.start_tor | Windows => Torwin.start_tor end
  else if row =? 3 then
    match v with Linux => Torlinux.stop_tor | Windows => Torwin.stop_tor end
  else if row =? 4 then
    match v with Linux => Torlinux.verify_tor | Windows => Torwin.verify_tor end
  else ret tt.

(** How one pass of the [while] body ends: [break], or on to [time.sleep(1)]
    with the binding of [current_row] it leaves. *)
Inductive control :=
| Break
| Next (current_row : option Z).

(** [key == curses.KEY_ENTER or key in [10, 13]] *)
Definition is_select (key : Z) : bool :=
  (key =? KEY_ENTER) || existsb (Z.eqb key) [10; 13].

(** The [if] / [elif] / [elif] on the key read, with Python's left-to-right
    evaluation of [and]: [current_row] is read only after the key matched. *)
Definition handle_key (v : variant) (current_row : option Z) (key : Z) : M control :=
  up <- (if key =? KEY_UP
         then row <- load "current_row" current_row ;; ret (row >? 0)
         else ret false) ;;
  if up then
    row <- load "current_row" current_row ;;
    ret (Next (Some (row - 1)))
  else
    down <- (if key =? KEY_DOWN
             then row <- load "current_row" current_row ;;
                  ret (row <? entryCount v - 1)
             else ret false) ;;
    if down then
      row <- load "current_row" current_row ;;
      ret (Next (Some (row + 1)))
    else if is_select key then
      row <- load "current_row" current_row ;;
      if row =? entryCount v - 1 then ret Break
      else
        emit Clear ;;
        emit Refresh ;;
        dispatch v row ;;
        ret (Next current_row)
    else ret (Next current_row).

(** How a run of the loop over a finite list of keys ends when nothing is
    raised: [break] was reached (with the keys never read), or the keys ran
    out and [getch] waits with [current_row] as given. *)
Inductive outcome :=
| Returned (unread : list Z)
| AwaitingKey (current_row : option Z).

(** [while True:] over the keys [getch] will deliver. *)
Fixpoint menu_loop (v : variant) (current_row : option Z) (keys : list Z)
  : M outcome :=
  render v current_row ;;
  match keys with
  | [] => ret (AwaitingKey current_row)
  | key :: keys' =>
      emit (Getch key) ;;
      c <- handle_key v current_row key ;;
      match c with
      | Break => ret (Returned keys')
      | Next current_row' => sleep 1 ;; menu_loop v current_row' keys'
      end
  end.

(** The binding of the local [current_row] when the loop is entered:
    [torwin.py] assigns 0 before the loop; [torlinux.py] assigns nothing in
    [main_menu], and its augmented assignments make the name local there. *)
Definition initial_current_row (v : variant) : option Z :=
  match v with
  | Linux => None
  | Windows => Some 0
  end.

Definition main_menu (v : variant) (keys : list Z) : M outcome :=
  emit (CursSet 0) ;;
  emit Clear ;;
  emit Refresh ;;
  menu_loop v (initial_current_row v) keys.

(** [global current_row; current_row = 0] of [torlinux.py]'s [main]. *)
Definition store_global_current_row (value : Z) : M unit :=
  fun _ m => (Ok tt, {| global_current_row := Some value; trace := trace m |}).

Definition main (v : variant) (keys : list Z) : M outcome :=
  match v with
  | Linux => store_global_current_row 0
  | Windows => ret tt
  end ;;
  emit StartColor ;;
  emit (InitPair 1 COLOR_BLACK COLOR_WHITE) ;;
  main_menu v keys.

(** ** Vocabulary of the statements *)

(** Appending a batch of events. *)
Definition logs (es : list event) (m : machine) : machine :=
  {| global_current_row := global_current_row m; trace := (trace m ++ es)%list |}.

(** What [draw_entries] puts on the screen when [current_row] is bound. *)
Fixpoint entries_drawn (row idx : Z) (items : list string) : list event :=
  match items with
  | [] => []
  | item :: items' =>
      Addstr (idx + 2) 0 item (if idx =? row then color_pair 1 else 0)
      :: entries_drawn row (idx + 1) items'
  end.

Definition header_drawn : list event :=
  [ Clear;
    Addstr 0 0 "Anonymity Setup Tool" (Z.lor A_BOLD A_UNDERLINE);
    Addstr 1 0 "Use arrow keys to navigate and Enter to select." 0 ].

(** A full redraw of the menu with entry [row] highlighted. *)
Definition drawn (v : variant) (row : Z) : list event :=
  (header_drawn ++ entries_drawn row 0 (menu v) ++ [Refresh])%list.

(** [current_row] is bound and indexes an entry of the menu. *)
Definition valid_row (v : variant) (current_row : option Z) : Prop :=
  exists row, current_row = Some row /\ 0 <= row <= entryCount v - 1.

(** A run that is still going has a valid [current_row]. *)
Definition running_valid (v : variant) (r : result outcome) : Prop :=
  match r with
  | Ok (AwaitingKey current_row) => valid_row v current_row
  | _ => True
  end.

(** The Action Registry: the operation bound to each entry before Exit, in
    menu order (Install, Configure, Start, Stop, Verify). *)
Definition actions (v : variant) : list (M unit) :=
  match v with
  | Linux =>
      [ Torlinux.install_packages; Torlinux.configure_proxychains;
        Torlinux.start_tor; Torlinux.stop_tor; Torlinux.verify_tor ]
  | Windows =>
      [ Torwin.install_tor; Torwin.configure_proxifier;
        Torwin.start_tor; Torwin.stop_tor; Torwin.verify_tor ]
  end.

Definition bound_action (v : variant) (i : Z) : M unit :=
  nth (Z.to_nat i) (actions v) (ret tt).

(** The state in which the action of entry [i] starts after select key
    [key]: the menu was drawn, the key read, the screen cleared. *)
Definition at_select (v : variant) (i key : Z) (m : machine) : machine :=
  logs (drawn v i ++ [Getch key; Clear; Refresh]) m.

(** One pass of the loop that runs no action: redraw with entry [i]
    highlighted, read [key], sleep a second. *)
Definition pass (v : variant) (i key : Z) : list event :=
  (drawn v i ++ [Getch key; Sleep 1])%list.

(** The loop goes on with the same selection after a select on entry [i]. *)
Definition resumes_after_select (v : variant) (i : Z) : Prop :=
  forall key rest w m,
    is_select key = true ->
    exists m', menu_loop v (Some i) (key :: rest) w m
               = menu_loop v (Some i) rest w m'.

Definition verify_tor (v : variant) : M unit :=
  match v with
  | Linux => Torlinux.verify_tor
  | Windows => Torwin.verify_tor
  end.

Definition check_tor (v : variant) : list string :=
  match v with
  | Linux => Torlinux.check_tor
  | Windows => Torwin.check_tor
  end.

(** The failures of a required external step in [torlinux.py], by menu
    entry: a command run with [check=True] exits non-zero, or the
    configuration file cannot be opened or written.  [m] is the state in
    which the action starts; each case gives the exception and the state
    at the point of failure. *)
Inductive required_step_fails (w : World) (m : machine)
  : Z -> exn -> machine -> Prop :=
| apt_update_fails (rc : Z) (out : string) :
    let m1 := logs [Print "Updating package list and installing Tor and Proxychains..." (Some yellow)] m in
    spawn w (trace m1) Torlinux.apt_update = Some (rc, out) ->
    rc <> 0 ->
    required_step_fails w m 0
      (CalledProcessError rc Torlinux.apt_update)
      (logs [Run Torlinux.apt_update rc] m1)
| apt_install_fails (out0 : string) (rc : Z) (out : string) :
    let m1 := logs [Print "Updating package list and installing Tor and Proxychains..." (Some yellow)] m in
    let m2 := logs [Run Torlinux.apt_update 0] m1 in
    spawn w (trace m1) Torlinux.apt_update = Some (0, out0) ->
    spawn w (trace m2) Torlinux.apt_install = Some (rc, out) ->
    rc <> 0 ->
    required_step_fails w m 0
      (CalledProcessError rc Torlinux.apt_install)
      (logs [Run Torlinux.apt_install rc] m2)
| conf_open_fails :
    let m1 := logs [Print "Configuring Proxychains..." (Some yellow)] m in
    can_open w (trace m1) Torlinux.conf_path "w" = false ->
    required_step_fails w m 1 (OSError Torlinux.conf_path) m1
| conf_write_fails :
    let m1 := logs [Print "Configuring Proxychains..." (Some yellow)] m in
    let m2 := logs [FileOpen Torlinux.conf_path "w"] m1 in
    can_open w (trace m1) Torlinux.conf_path "w" = true ->
    can_write w (trace m2) Torlinux.conf_path Torlinux.proxychains_conf = false ->
    required_step_fails w m 1 (OSError Torlinux.conf_path) m2
| systemctl_start_fails (rc : Z) (out : string) :
    let m1 := logs [Print "Starting Tor service..." (Some yellow)] m in
    spawn w (trace m1) Torlinux.systemctl_start = Some (rc, out) ->
    rc <> 0 ->
    required_step_fails w m 2
      (CalledProcessError rc Torlinux.systemctl_start)
      (logs [Run Torlinux.systemctl_start rc] m1)
| systemctl_stop_fails (rc : Z) (out : string) :
    let m1 := logs [Print "Stopping Tor service..." (Some yellow)] m in
    spawn w (trace m1) Torlinux.systemctl_stop = Some (rc, out) ->
    rc <> 0 ->
    required_step_fails w m 3
      (CalledProcessError rc Torlinux.systemctl_stop)
      (logs [Run Torlinux.systemctl_stop rc] m1).

(** Reading a configuration text the way proxychains does: line by line,
    each line a list of fields separated by blanks or tabs, empty lines
    dropped. *)
Fixpoint split_on (sep : ascii -> bool) (s : string) : list string :=
  match s with
  | EmptyString => [EmptyString]
  | String c rest =>
      if sep c then EmptyString :: split_on sep rest
      else match split_on sep rest with
           | [] => [String c EmptyString]
           | piece :: pieces => String c piece :: pieces
           end
  end.

Definition is_blank (c : ascii) : bool :=
  Ascii.eqb c " " || Ascii.eqb c (ascii_of_nat 9).

Definition fields (line : string) : list string :=
  filter (fun f => negb (String.eqb f "")) (split_on is_blank line).

Definition directives (text : string) : list (list string) :=
  filter (fun fs => match fs with [] => false | _ => true end)
         (map fields (split_on (Ascii.eqb (ascii_of_nat 10)) text)).

(** The entries under the [[ProxyList]] heading. *)
Fixpoint proxy_list (ds : list (list string)) : list (list string) :=
  match ds with
  | [] => []
  | d :: ds' =>
      if list_eq_dec string_dec d ["[ProxyList]"] then ds' else proxy_list ds'
  end.

(** Sample environments.  [env proc files net]: every program ends as
    [proc] says, opening and writing files succeeds when [files], and
    downloads deliver [net]. *)
Definition env (proc : option (Z * string)) (files : bool)
  (net : option (list string)) : World :=
  {| spawn := fun _ _ => proc;
     can_open := fun _ _ _ => files;
     can_write := fun _ _ _ => files;
     fetch := fun _ _ => net;
     stream_breaks := fun _ _ => false;
     can_extract := fun _ _ _ => true |}.

(** Everything works. *)
Definition calm : World := env (Some (0, "")) true (Some ["PK"]).

(** No network: [requests.get] raises. *)
Definition offline : World := env (Some (0, "")) true None.

(** No file can be opened for writing. *)
Definition readonly : World := env (Some (0, "")) false (Some ["PK"]).

(** Every program exits with status [rc] and prints [body]. *)
Definition exiting (rc : Z) (body : string) : World :=
  env (Some (rc, body)) true (Some ["PK"]).

(** The start of every run of [main]: colours set up, cursor hidden,
    screen cleared. *)
Definition started : list event :=
  [ StartColor; InitPair 1 COLOR_BLACK COLOR_WHITE; CursSet 0; Clear; Refresh ].

(** ** Vocabulary of the further properties *)

(** Where a key that does not select leaves a valid selection. *)
Definition move (v : variant) (row key : Z) : Z :=
  if key =? KEY_UP then Z.max 0 (row - 1)
  else if key =? KEY_DOWN then Z.min (entryCount v - 1) (row + 1)
  else row.

(** The events of the passes over keys none of which selects, from [row]. *)
Fixpoint nav_events (v : variant) (row : Z) (keys : list Z) : list event :=
  match keys with
  | [] => []
  | key :: keys' => (pass v row key ++ nav_events v (move v row key) keys')%list
  end.

(** A computation is confined to [P] and [Q]: whatever the environment
    answers, it only appends events that satisfy [P] (and leaves the
    module-level name alone), and an exception it raises satisfies [Q]. *)
Definition confined (P : event -> Prop) (Q : exn -> Prop) {A} (c : M A) : Prop :=
  forall w m,
    (exists es, snd (c w m) = logs es m /\ Forall P es) /\
    (forall e, fst (c w m) = Raise e -> Q e).

(** What a run of [torlinux.py]'s menu may do to the outside: draw, read
    keys, print, sleep 1 or 10 seconds, run one of five fixed commands,
    open /etc/proxychains4.conf for writing and write the template to it. *)
Definition torlinux_event (e : event) : Prop :=
  match e with
  | Run argv _ =>
      In argv [ Torlinux.apt_update; Torlinux.apt_install;
                Torlinux.systemctl_start; Torlinux.systemctl_stop;
                Torlinux.check_tor ]
  | Sleep secs => secs = 1 \/ secs = 10
  | FileOpen path mode => path = Torlinux.conf_path /\ mode = "w"
  | FileWrite path data =>
      path = Torlinux.conf_path /\ data = Torlinux.proxychains_conf
  | Popen _ | HttpGet _ | ExtractAll _ _ => False
  | CursSet _ | StartColor | InitPair _ _ _ => False
  | Print _ _ | Clear | Refresh | Addstr _ _ _ _ | Getch _ => True
  end.

(** The exceptions of the external steps of [torlinux.py]: a checked
    command exited non-zero, a program could not be started, or the
    configuration file could not be opened or written. *)
Definition torlinux_exn (e : exn) : Prop :=
  match e with
  | CalledProcessError returncode cmd =>
      returncode <> 0 /\
      In cmd [ Torlinux.apt_update; Torlinux.apt_install;
               Torlinux.systemctl_start; Torlinux.systemctl_stop ]
  | OSError filename =>
      In filename [ "sudo"; "proxychains4"; Torlinux.conf_path ]
  | UnboundLocalError _ | RequestException _ | BadZipFile _ => False
  end.

(** The same for [torwin.py]: three commands run and waited for, tor.exe
    started, one download into tor.zip, one extraction. *)
Definition torwin_event (e : event) : Prop :=
  match e with
  | Run argv _ =>
      In argv [ Torwin.proxifier_addrule; Torwin.taskkill; Torwin.check_tor ]
  | Popen argv => argv = [Torwin.tor_exe]
  | Sleep secs => secs = 1 \/ secs = 10
  | HttpGet url => url = Torwin.TOR_URL
  | FileOpen path mode => path = Torwin.TOR_ZIP_PATH /\ mode = "wb"
  | FileWrite path _ => path = Torwin.TOR_ZIP_PATH
  | ExtractAll archive dest =>
      archive = Torwin.TOR_ZIP_PATH /\ dest = Torwin.TOR_INSTALL_PATH
  | CursSet _ | StartColor | InitPair _ _ _ => False
  | Print _ _ | Clear | Refresh | Addstr _ _ _ _ | Getch _ => True
  end.

Definition torwin_exn (e : exn) : Prop :=
  In e [ RequestException Torwin.TOR_URL;
         OSError Torwin.TOR_ZIP_PATH;
         BadZipFile Torwin.TOR_ZIP_PATH;
         OSError "ProxifierCLI.exe";
         OSError Torwin.tor_exe;
         OSError "taskkill";
         OSError "curl" ].

Definition variant_event (v : variant) : event -> Prop :=
  match v with
  | Linux => torlinux_event
  | Windows => torwin_event
  end.

Definition variant_exn (v : variant) : exn -> Prop :=
  match v with
  | Linux => torlinux_exn
  | Windows => torwin_exn
  end.

(** What a file holds after a sequence of events, as far as the events
    tell: opening it for writing (the scripts use the modes w and wb only)
    creates or empties it, a write appends; [None] when it was never
    opened. *)
Definition apply_event (path : string) (content : option string) (e : event)
  : option string :=
  match e with
  | FileOpen p mode =>
      if String.eqb p path && (String.eqb mode "w" || String.eqb mode "wb")
      then Some ""
      else content
  | FileWrite p data =>
      if String.eqb p path
      then option_map (fun held => (held ++ data)%string) content
      else content
  | _ => content
  end.

Definition file_content (path : string) (events : list event) : option string :=
  fold_left (apply_event path) events None.

(** The events of a completed action of [torlinux.py] that runs checked
    commands, by menu entry (0 Install, 2 Start, 3 Stop). *)
Definition torlinux_completed (i : Z) : list event :=
  if i =? 0 then
    [ Print "Updating package list and installing Tor and Proxychains..." (Some yellow);
      Run Torlinux.apt_update 0;
      Run Torlinux.apt_install 0;
      Print "Installation complete." (Some green) ]
  else if i =? 2 then
    [ Print "Starting Tor service..." (Some yellow);
      Run Torlinux.systemctl_start 0;
      Sleep 10;
      Print "Tor service started." (Some green) ]
  else
    [ Print "Stopping Tor service..." (Some yellow);
      Run Torlinux.systemctl_stop 0;
      Print "Tor service stopped." (Some green) ].

(** The chunks of a body put together. *)
Definition joined (chunks : list string) : string :=
  fold_right String.append "" chunks.

(** The events of [download_file] once the request was answered, when
    [written] chunks went to the file. *)
Definition downloaded (url dest_path : string) (written : list string)
  : list event :=
  HttpGet url :: FileOpen dest_path "wb" :: map (FileWrite dest_path) written.

(** A disk that fills up: a body of two chunks arrives, the first write
    succeeds and every later one fails. *)
Definition short_disk : World :=
  {| spawn := fun _ _ => Some (0, "");
     can_open := fun _ _ _ => true;
     can_write := fun history _ _ =>
       forallb (fun e => match e with FileWrite _ _ => false | _ => true end)
               history;
     fetch := fun _ _ => Some ["PK"; "rest"];
     stream_breaks := fun _ _ => false;
     can_extract := fun _ _ _ => true |}.


(** An entry line drawn with colour pair 1. *)
Definition highlighted (e : event) : bool :=
  match e with
  | Addstr _ _ _ attr => attr =? color_pair 1
  | _ => false
  end.

(** ** Reasoning about traces and the monad *)

Lemma log_logs (e : event) (m : machine) : log e m = logs [e] m.
Proof. reflexivity. Qed.

Lemma logs_logs (es1 es2 : list event) (m : machine) :
  logs es2 (logs es1 m) = logs (es1 ++ es2)%list m.
Proof. unfold logs; simpl. now rewrite <- app_assoc. Qed.

Lemma logs_nil (m : machine) : logs [] m = m.
Proof. destruct m; unfold logs; simpl. now rewrite app_nil_r. Qed.

Lemma emit_logs (e : event) w m : emit e w m = (Ok tt, logs [e] m).
Proof. reflexivity. Qed.

(** ** Python's substring test *)

Lemma prefix_iff (p s : string) :
  String.prefix p s = true <-> exists t, s = (p ++ t)%string.
Proof.
  revert s; induction p as [|a p IH]; intros s; simpl.
  - split; [intros _; now exists s | now destruct s].
  - destruct s as [|b s].
    + split; [discriminate | intros [t Ht]; discriminate].
    + simpl. destruct (Ascii.ascii_dec a b) as [->|Hab].
      * rewrite IH. split; intros [t Ht]; exists t; [now rewrite Ht | now injection Ht].
      * split; [discriminate | intros [t Ht]; injection Ht; intros; congruence].
Qed.

Lemma str_in_iff (needle haystack : string) :
  str_in needle haystack = true <->
  exists before after, haystack = (before ++ needle ++ after)%string.
Proof.
  induction haystack as [|c rest IH].
  - cbn [str_in]. rewrite orb_false_r, prefix_iff. split.
    + intros [t Ht]. now exists EmptyString, t.
    + intros [[|b before] [after H]]; [now exists after | discriminate].
  - cbn [str_in]. rewrite orb_true_iff, prefix_iff, IH. split.
    + intros [[t Ht] | [before [after H]]].
      * now exists EmptyString, t.
      * exists (String c before), after. simpl. now rewrite H.
    + intros [[|b before] [after H]].
      * left. now exists after.
      * right. exists before, after. simpl in H. now injection H.
Qed.

(** ** One pass of the loop *)

Lemma entryCount_6 (v : variant) : entryCount v = 6.
Proof. now destruct v. Qed.

Lemma draw_entries_bound (row : Z) (items : list string) :
  forall idx w m,
    draw_entries (Some row) idx items w m
    = (Ok tt, logs (entries_drawn row idx items) m).
Proof.
  induction items as [|item items IH]; intros idx w m.
  - simpl. now rewrite logs_nil.
  - cbn [draw_entries entries_drawn load].
    unfold bind at 1. unfold ret at 1.
    unfold bind at 1.
    destruct (idx =? row);
      rewrite emit_logs, IH, logs_logs; reflexivity.
Qed.

Lemma render_bound (v : variant) (row : Z) w m :
  render v (Some row) w m = (Ok tt, logs (drawn v row) m).
Proof.
  unfold render, drawn, header_drawn.
  repeat (unfold bind at 1; rewrite emit_logs).
  unfold bind at 1. rewrite draw_entries_bound.
  rewrite emit_logs, !logs_logs. reflexivity.
Qed.

(** With [current_row] unbound the first comparison [idx == current_row]
    raises, after the screen was cleared and the two header lines drawn. *)
Lemma render_unbound (v : variant) w m :
  render v None w m
  = (Raise (UnboundLocalError "current_row"), logs header_drawn m).
Proof.
  unfold render, header_drawn.
  repeat (unfold bind at 1; rewrite emit_logs).
  rewrite !logs_logs. now destruct v.
Qed.

Lemma is_select_iff (key : Z) :
  is_select key = true <-> key = KEY_ENTER \/ key = 10 \/ key = 13.
Proof.
  unfold is_select, KEY_ENTER; simpl.
  rewrite !orb_true_iff, !Z.eqb_eq. intuition discriminate.
Qed.

Lemma is_select_not_arrow (key : Z) :
  is_select key = true -> (key =? KEY_UP) = false /\ (key =? KEY_DOWN) = false.
Proof.
  rewrite is_select_iff. unfold KEY_ENTER, KEY_UP, KEY_DOWN.
  intros [-> | [-> | ->]]; now split.
Qed.

(** Up: one row up unless already at the top; nothing else happens. *)
Lemma handle_key_up (v : variant) (row : Z) w m :
  handle_key v (Some row) KEY_UP w m
  = (Ok (Next (Some (if row >? 0 then row - 1 else row))), m).
Proof.
  unfold handle_key, bind, load, ret. simpl.
  now destruct (row >? 0).
Qed.

(** Down: one row down unless already at the last entry. *)
Lemma handle_key_down (v : variant) (row : Z) w m :
  handle_key v (Some row) KEY_DOWN w m
  = (Ok (Next (Some (if row <? entryCount v - 1 then row + 1 else row))), m).
Proof.
  unfold handle_key, bind, load, ret. simpl.
  now destruct (row <? entryCount v - 1).
Qed.

(** Any key that is neither an arrow nor a select key changes nothing. *)
Lemma handle_key_other (v : variant) (row key : Z) w m :
  (key =? KEY_UP) = false -> (key =? KEY_DOWN) = false -> is_select key = false ->
  handle_key v (Some row) key w m = (Ok (Next (Some row)), m).
Proof.
  intros Hup Hdown Hsel.
  unfold handle_key, bind, load, ret. now rewrite Hup, Hdown, Hsel.
Qed.

(** Select on the last entry: [break]. *)
Lemma handle_key_select_exit (v : variant) (key : Z) w m :
  is_select key = true ->
  handle_key v (Some (entryCount v - 1)) key w m = (Ok Break, m).
Proof.
  intros Hsel. destruct (is_select_not_arrow key Hsel) as [Hup Hdown].
  unfold handle_key, bind, load, ret.
  now rewrite Hup, Hdown, Hsel, Z.eqb_refl.
Qed.

(** Select on any other row: clear the screen, run the [if] chain on the
    row, keep [current_row]; an exception of the chain passes through. *)
Lemma handle_key_select (v : variant) (row key : Z) w m :
  is_select key = true -> row <> entryCount v - 1 ->
  handle_key v (Some row) key w m
  = match dispatch v row w (logs [Clear; Refresh] m) with
    | (Ok _, m') => (Ok (Next (Some row)), m')
    | (Raise e, m') => (Raise e, m')
    end.
Proof.
  intros Hsel Hrow. destruct (is_select_not_arrow key Hsel) as [Hup Hdown].
  apply Z.eqb_neq in Hrow.
  unfold handle_key, bind, load, ret.
  rewrite Hup, Hdown, Hsel, Hrow, !emit_logs, logs_logs. simpl app.
  now destruct (dispatch v row w _) as [[[]|e] m'].
Qed.

(** The loop waiting for a key: the menu is on the screen. *)
Lemma menu_loop_nil (v : variant) (row : Z) w m :
  menu_loop v (Some row) [] w m
  = (Ok (AwaitingKey (Some row)), logs (drawn v row) m).
Proof.
  cbn [menu_loop]. unfold bind. now rewrite render_bound.
Qed.

(** One pass: redraw, read the key, act on it, then sleep and go round. *)
Lemma menu_loop_cons (v : variant) (row key : Z) (keys : list Z) w m :
  menu_loop v (Some row) (key :: keys) w m
  = match handle_key v (Some row) key w (logs (drawn v row ++ [Getch key]) m) with
    | (Ok Break, m') => (Ok (Returned keys), m')
    | (Ok (Next current_row'), m') =>
        menu_loop v current_row' keys w (logs [Sleep 1] m')
    | (Raise e, m') => (Raise e, m')
    end.
Proof.
  cbn [menu_loop]. unfold bind at 1. rewrite render_bound.
  unfold bind at 1. rewrite emit_logs, logs_logs.
  unfold bind at 1.
  now destruct (handle_key v (Some row) key w _) as [[[|cr]|e] m'].
Qed.

(** With [current_row] unbound the loop raises before reading any key. *)
Lemma menu_loop_unbound (v : variant) (keys : list Z) w m :
  menu_loop v None keys w m
  = (Raise (UnboundLocalError "current_row"), logs header_drawn m).
Proof.
  destruct keys; cbn [menu_loop]; unfold bind at 1; now rewrite render_unbound.
Qed.

(** ** The selection stays on the menu *)

Lemma handle_key_valid (v : variant) (row key : Z) w m :
  0 <= row <= entryCount v - 1 ->
  match fst (handle_key v (Some row) key w m) with
  | Ok (Next current_row') => valid_row v current_row'
  | _ => True
  end.
Proof.
  intros Hrow.
  destruct (key =? KEY_UP) eqn:Hup.
  { apply Z.eqb_eq in Hup; subst key. rewrite handle_key_up; simpl.
    destruct (Z.gtb_spec row 0); eexists; (split; [reflexivity | lia]). }
  destruct (key =? KEY_DOWN) eqn:Hdown.
  { apply Z.eqb_eq in Hdown; subst key. rewrite handle_key_down; simpl.
    destruct (Z.ltb_spec row (entryCount v - 1));
      eexists; (split; [reflexivity | lia]). }
  destruct (is_select key) eqn:Hsel.
  - destruct (Z.eq_dec row (entryCount v - 1)) as [-> | Hne].
    + now rewrite handle_key_select_exit.
    + rewrite handle_key_select by assumption.
      destruct (dispatch v row w _) as [[[]|e] m']; simpl; [|exact I].
      now exists row.
  - rewrite handle_key_other by assumption. simpl. now exists row.
Qed.

Lemma menu_loop_valid (v : variant) (keys : list Z) :
  forall row w m,
    0 <= row <= entryCount v - 1 ->
    running_valid v (fst (menu_loop v (Some row) keys w m)).
Proof.
  induction keys as [|key keys IH]; intros row w m Hrow.
  - rewrite menu_loop_nil. simpl. now exists row.
  - rewrite menu_loop_cons.
    pose proof (handle_key_valid v row key w
                  (logs (drawn v row ++ [Getch key]) m) Hrow) as Hstep.
    destruct (handle_key v (Some row) key w _) as [[[|cr]|e] m'];
      simpl in Hstep |- *; try exact I.
    destruct Hstep as [row' [-> Hrow']]. now apply IH.
Qed.

(** Running a longer key list: what was read so far decides where the
    loop stands, and the rest is read from there. *)
Lemma menu_loop_app (v : variant) (history rest : list Z) :
  forall current_row w m current_row' m1,
    menu_loop v current_row history w m = (Ok (AwaitingKey current_row'), m1) ->
    exists row' m0,
      current_row' = Some row' /\ m1 = logs (drawn v row') m0 /\
      menu_loop v current_row (history ++ rest) w m
      = menu_loop v (Some row') rest w m0.
Proof.
  induction history as [|key history IH]; intros [row|] w m cr' m1 H;
    try (rewrite menu_loop_unbound in H; discriminate).
  - rewrite menu_loop_nil in H. injection H as <- <-.
    now exists row, m.
  - rewrite menu_loop_cons in H. simpl app. rewrite menu_loop_cons.
    destruct (handle_key v (Some row) key w _) as [[[|cr]|e] m'];
      try discriminate.
    now apply IH.
Qed.

(** C1. For every sequence of keys, starting from selection index 0, the
    selection index of the running loop is bound and lies in
    [0, entryCount - 1]: this holds for the loop entered with
    [current_row = 0] in either script, whatever the actions do in between,
    and for the whole program started at [main]. *)
Theorem C1_current_row_stays_in_range :
  forall (v : variant) (keys : list Z) (w : World) (m : machine),
    running_valid v (fst (menu_loop v (Some 0) keys w m)) /\
    running_valid v (fst (main v keys w m)).
Proof.
  intros v keys w m. split.
  - apply menu_loop_valid. rewrite entryCount_6. lia.
  - destruct v.
    + unfold main, main_menu, initial_current_row.
      repeat (unfold bind at 1; cbn [store_global_current_row emit]).
      now rewrite menu_loop_unbound.
    + unfold main, main_menu, initial_current_row.
      repeat (unfold bind at 1; cbn [ret emit]).
      apply menu_loop_valid. rewrite entryCount_6. lia.
Qed.

(** C2. Whatever keys were read before, once the selection stands on the
    last entry (Exit) a select key (KEY_ENTER, 10 or 13) ends the loop:
    [main_menu] returns and the keys after it are never read. *)
Theorem C2_select_on_exit_returns :
  forall (v : variant) (start : Z) (history : list Z) (key : Z) (rest : list Z)
         (w : World) (m m1 : machine),
    is_select key = true ->
    menu_loop v (Some start) history w m
    = (Ok (AwaitingKey (Some (entryCount v - 1))), m1) ->
    menu_loop v (Some start) (history ++ key :: rest) w m
    = (Ok (Returned rest), logs [Getch key] m1).
Proof.
  intros v start history key rest w m m1 Hsel Hrun.
  destruct (menu_loop_app v history (key :: rest) _ _ _ _ _ Hrun)
    as (row' & m0 & Hrow & -> & ->).
  injection Hrow as <-.
  rewrite menu_loop_cons, handle_key_select_exit by assumption.
  now rewrite logs_logs.
Qed.

(** C6. On a valid selection [i], Up moves to [max 0 (i - 1)] and Down to
    [min (entryCount - 1) (i + 1)]; handling the key has no other effect
    (no event, no change of the interpreter state). *)
Theorem C6_up_and_down :
  forall (v : variant) (i : Z) (w : World) (m : machine),
    0 <= i <= entryCount v - 1 ->
    handle_key v (Some i) KEY_UP w m
    = (Ok (Next (Some (Z.max 0 (i - 1)))), m) /\
    handle_key v (Some i) KEY_DOWN w m
    = (Ok (Next (Some (Z.min (entryCount v - 1) (i + 1)))), m).
Proof.
  intros v i w m Hi. rewrite handle_key_up, handle_key_down. split.
  - destruct (Z.gtb_spec i 0) as [Hpos | Htop].
    + now rewrite Z.max_r by lia.
    + assert (i = 0) as -> by lia. reflexivity.
  - destruct (Z.ltb_spec i (entryCount v - 1)) as [Hlt | Hlast].
    + now rewrite Z.min_r by lia.
    + assert (i = entryCount v - 1) as -> by lia.
      now rewrite Z.min_l by lia.
Qed.

(** C9. A key that is neither Up, Down nor a select key, an Up at index 0
    and a Down at the last index all leave [current_row] as it is and run
    no action: the pass consists of the redraw, the key read and the
    one-second sleep, and the loop goes on with the next key. *)
Theorem C9_other_keys_change_nothing :
  forall (v : variant) (i key : Z) (rest : list Z) (w : World) (m : machine),
    (key <> KEY_UP /\ key <> KEY_DOWN /\
     key <> KEY_ENTER /\ key <> 10 /\ key <> 13) \/
    (key = KEY_UP /\ i = 0) \/
    (key = KEY_DOWN /\ i = entryCount v - 1) ->
    handle_key v (Some i) key w m = (Ok (Next (Some i)), m) /\
    menu_loop v (Some i) (key :: rest) w m
    = menu_loop v (Some i) rest w (logs (drawn v i ++ [Getch key; Sleep 1]) m).
Proof.
  intros v i key rest w m H.
  assert (Hk : forall m', handle_key v (Some i) key w m' = (Ok (Next (Some i)), m')).
  { intros m'. destruct H as [(Hu & Hd & He & H10 & H13) | [[-> ->] | [-> ->]]].
    - apply handle_key_other; try now apply Z.eqb_neq.
      destruct (is_select key) eqn:Hsel; [|reflexivity].
      apply is_select_iff in Hsel. tauto.
    - now rewrite handle_key_up.
    - now rewrite handle_key_down, Z.ltb_irrefl. }
  split; [apply Hk|].
  rewrite menu_loop_cons, Hk, logs_logs, <- app_assoc. reflexivity.
Qed.

(** ** Selecting an entry *)

Lemma dispatch_bound (v : variant) (i : Z) :
  0 <= i <= entryCount v - 2 -> dispatch v i = bound_action v i.
Proof.
  rewrite entryCount_6. intros Hi.
  assert (i = 0 \/ i = 1 \/ i = 2 \/ i = 3 \/ i = 4) as Hcases by lia.
  destruct Hcases as [-> | [-> | [-> | [-> | ->]]]]; now destruct v.
Qed.

(** A select on an entry before Exit: the bound action runs in the state
    [at_select]; the loop goes on if it returns and ends if it raises. *)
Lemma menu_loop_select (v : variant) (i key : Z) (rest : list Z) w m :
  0 <= i <= entryCount v - 2 -> is_select key = true ->
  menu_loop v (Some i) (key :: rest) w m
  = match bound_action v i w (at_select v i key m) with
    | (Ok _, m') => menu_loop v (Some i) rest w (logs [Sleep 1] m')
    | (Raise e, m') => (Raise e, m')
    end.
Proof.
  intros Hi Hsel.
  rewrite menu_loop_cons, handle_key_select by (assumption || lia).
  rewrite dispatch_bound, logs_logs, <- app_assoc by assumption.
  unfold at_select. simpl app.
  now destruct (bound_action v i w _) as [[[]|e] m'].
Qed.

(** C7, as the code has it. On a row before Exit a select key runs exactly
    the action bound to that row (0 Install, 1 Configure, 2 Start, 3 Stop,
    4 Verify), once.  If the action returns, the loop sleeps a second and
    goes round with the same [current_row], which starts with a redraw of
    the menu; if the action raises, the exception leaves the loop. *)
Theorem C7_select_runs_bound_action :
  forall (v : variant) (i key : Z) (rest : list Z) (w : World) (m : machine),
    0 <= i <= entryCount v - 2 ->
    is_select key = true ->
    menu_loop v (Some i) (key :: rest) w m
    = match bound_action v i w (at_select v i key m) with
      | (Ok _, m') => menu_loop v (Some i) rest w (logs [Sleep 1] m')
      | (Raise e, m') => (Raise e, m')
      end.
Proof. intros; now apply menu_loop_select. Qed.

(** C7 as stated fails: in [torwin.py], with no network, Enter on entry 0
    starts the download in [install_tor], [requests.get] raises and the
    exception ends [main]; the Down key that follows is never read, so the
    loop does not resume. *)
Lemma C7_loop_ends_when_action_raises :
  main Windows [10; KEY_DOWN] offline boot
  = (Raise (RequestException Torwin.TOR_URL),
     logs (started ++ drawn Windows 0
           ++ [Getch 10; Clear; Refresh;
               Print "Downloading Tor..." (Some yellow)]) boot)
  /\ ~ resumes_after_select Windows 0.
Proof.
  split; [reflexivity|].
  intros H. destruct (H 10 [] offline boot eq_refl) as [m' Hm'].
  rewrite menu_loop_nil in Hm'.
  assert (fst (menu_loop Windows (Some 0) [10] offline boot)
          = Raise (RequestException Torwin.TOR_URL)) as Hrun by reflexivity.
  rewrite Hm' in Hrun. discriminate.
Qed.

(** ** Failing steps *)

Lemma required_step_raises w m i e m' :
  required_step_fails w m i e m' ->
  bound_action Linux i w m = (Raise e, m') /\ 0 <= i <= 3.
Proof.
  intros H; destruct H as [rc out m1 Hrun Hrc | out0 rc out m1 m2 Hup Hrun Hrc
                          | m1 Hopen | m1 m2 Hopen Hwrite
                          | rc out m1 Hrun Hrc | rc out m1 Hrun Hrc];
    (split; [|lia]); apply Z.eqb_neq in Hrc || idtac;
    unfold bound_action; simpl nth.
  - unfold Torlinux.install_packages, print_colored.
    unfold bind at 1. rewrite emit_logs. fold m1.
    unfold bind at 1. unfold subprocess_run. rewrite Hrun, Hrc. reflexivity.
  - unfold Torlinux.install_packages, print_colored.
    unfold bind at 1. rewrite emit_logs. fold m1.
    unfold bind at 1. unfold subprocess_run at 1. rewrite Hup. simpl.
    change (log (Run Torlinux.apt_update 0) m1) with m2.
    unfold bind at 1. unfold subprocess_run. rewrite Hrun, Hrc.
    reflexivity.
  - unfold Torlinux.configure_proxychains, print_colored.
    unfold bind at 1. rewrite emit_logs. fold m1.
    unfold bind at 1. unfold open. now rewrite Hopen.
  - unfold Torlinux.configure_proxychains, print_colored.
    unfold bind at 1. rewrite emit_logs. fold m1.
    unfold bind at 1. unfold open. rewrite Hopen, log_logs. fold m2.
    unfold bind at 1. unfold write. now rewrite Hwrite.
  - unfold Torlinux.start_tor, print_colored.
    unfold bind at 1. rewrite emit_logs. fold m1.
    unfold bind at 1. unfold subprocess_run. rewrite Hrun, Hrc. reflexivity.
  - unfold Torlinux.stop_tor, print_colored.
    unfold bind at 1. rewrite emit_logs. fold m1.
    unfold bind at 1. unfold subprocess_run. rewrite Hrun, Hrc. reflexivity.
Qed.

(** C3, as the code has it. In [torlinux.py] a command run with
    [check=True] that exits non-zero (apt update, apt install, systemctl
    start, systemctl stop), or a configuration file that cannot be opened
    or written, raises in the selected action, which stops there, before
    its success message.  [main_menu] catches nothing: the same exception
    ends the menu loop, with no redraw and no further key read. *)
Theorem C3_failed_step_ends_action_and_loop :
  forall (w : World) (m : machine) (key : Z) (rest : list Z)
         (i : Z) (e : exn) (m' : machine),
    is_select key = true ->
    required_step_fails w (at_select Linux i key m) i e m' ->
    bound_action Linux i w (at_select Linux i key m) = (Raise e, m') /\
    menu_loop Linux (Some i) (key :: rest) w m = (Raise e, m').
Proof.
  intros w m key rest i e m' Hsel Hfail.
  destruct (required_step_raises _ _ _ _ _ Hfail) as [Hact Hi].
  split; [exact Hact|].
  rewrite menu_loop_select by (assumption || (rewrite entryCount_6; lia)).
  now rewrite Hact.
Qed.

(** C3 as stated fails: the loop does not survive a failed step.  In
    [torlinux.py]'s loop, Enter on entry 0 with apt update exiting 100 ends
    the loop with [CalledProcessError]; in [torwin.py], started at [main],
    Enter on entry 0 with tor.zip not writable ends the program with
    [OSError].  In both the Down key that follows is never read.  And a
    non-zero exit is not fatal to every action: Verify of [torlinux.py]
    runs its check without [check=True] and returns normally when the
    program exits with 7. *)
Lemma C3_loop_does_not_survive :
  menu_loop Linux (Some 0) [10; KEY_DOWN] (exiting 100 "") boot
  = (Raise (CalledProcessError 100 Torlinux.apt_update),
     logs (drawn Linux 0
           ++ [Getch 10; Clear; Refresh;
               Print "Updating package list and installing Tor and Proxychains..."
                     (Some yellow);
               Run Torlinux.apt_update 100]) boot)
  /\
  main Windows [10; KEY_DOWN] readonly boot
  = (Raise (OSError Torwin.TOR_ZIP_PATH),
     logs (started ++ drawn Windows 0
           ++ [Getch 10; Clear; Refresh;
               Print "Downloading Tor..." (Some yellow);
               HttpGet Torwin.TOR_URL]) boot)
  /\
  Torlinux.verify_tor (exiting 7 "") boot
  = (Ok tt,
     logs [ Print "Verifying Tor connection..." (Some yellow);
            Run Torlinux.check_tor 7;
            Print "Tor configuration failed." (Some red);
            Print "" None ] boot).
Proof. repeat split; reflexivity. Qed.

(** ** Verify *)

Lemma verify_tor_run (v : variant) w m rc body :
  spawn w (trace (logs [Print "Verifying Tor connection..." (Some yellow)] m))
        (check_tor v) = Some (rc, body) ->
  verify_tor v w m
  = (Ok tt,
     logs (if str_in "Congratulations. This browser is configured to use Tor." body
           then [Print "Tor is successfully configured!" (Some green)]
           else [Print "Tor configuration failed." (Some red); Print body None])
          (logs [Run (check_tor v) rc]
             (logs [Print "Verifying Tor connection..." (Some yellow)] m))).
Proof.
  intros Hrun.
  assert (verify_tor v
          = (print_colored "Verifying Tor connection..." yellow ;;
             result <- subprocess_run (check_tor v) false ;;
             if str_in "Congratulations. This browser is configured to use Tor."
                       (snd result)
             then print_colored "Tor is successfully configured!" green
             else (print_colored "Tor configuration failed." red ;;
                   print (snd result)))) as -> by now destruct v.
  unfold print_colored, print.
  unfold bind at 1. rewrite emit_logs.
  unfold bind at 1. unfold subprocess_run. rewrite Hrun. cbn [andb snd].
  rewrite log_logs.
  destruct (str_in _ body).
  - now rewrite emit_logs.
  - unfold bind. now rewrite !emit_logs, logs_logs.
Qed.

(** C4. Given the body the check captured, Verify prints its success
    message exactly when the body contains the sentence
    Congratulations. This browser is configured to use Tor. (that is,
    when the body is some text, then that sentence, then some text);
    when the body lacks it, Verify prints the failure message followed by
    the whole body.  Either way it returns normally. *)
Theorem C4_verify_reports :
  forall (v : variant) (w : World) (m : machine) (rc : Z) (body : string),
    let m1 := logs [Print "Verifying Tor connection..." (Some yellow)] m in
    let checked := logs [Run (check_tor v) rc] m1 in
    spawn w (trace m1) (check_tor v) = Some (rc, body) ->
    (verify_tor v w m
     = (Ok tt, logs [Print "Tor is successfully configured!" (Some green)] checked)
     <-> exists before after,
           body = (before
                   ++ "Congratulations. This browser is configured to use Tor."
                   ++ after)%string)
    /\
    (~ (exists before after,
          body = (before
                  ++ "Congratulations. This browser is configured to use Tor."
                  ++ after)%string) ->
     verify_tor v w m
     = (Ok tt, logs [Print "Tor configuration failed." (Some red);
                     Print body None] checked)).
Proof.
  intros v w m rc body m1 checked Hrun.
  rewrite (verify_tor_run v w m rc body Hrun). fold m1. fold checked.
  rewrite <- str_in_iff.
  destruct (str_in _ body).
  - split; [tauto | intros H; now elim H].
  - split; [|reflexivity]. split; [|discriminate].
    intros H. injection H as H.
    apply app_inv_head in H. discriminate.
Qed.

(** The sentence has to be there to the letter: a page that has it
    without the final full stop, or in other case, is reported as a
    failure and printed. *)
Lemma verify_tor_near_misses :
  verify_tor Linux
    (exiting 0 "Congratulations. This browser is configured to use Tor") boot
  = (Ok tt,
     logs [ Print "Verifying Tor connection..." (Some yellow);
            Run Torlinux.check_tor 0;
            Print "Tor configuration failed." (Some red);
            Print "Congratulations. This browser is configured to use Tor" None ]
          boot)
  /\
  verify_tor Windows
    (exiting 0 "congratulations. this browser is configured to use tor.") boot
  = (Ok tt,
     logs [ Print "Verifying Tor connection..." (Some yellow);
            Run Torwin.check_tor 0;
            Print "Tor configuration failed." (Some red);
            Print "congratulations. this browser is configured to use tor." None ]
          boot).
Proof. split; reflexivity. Qed.

(** ** Configure *)

(** C5. When Configure of [torlinux.py] completes it has opened
    /etc/proxychains4.conf for writing and written the template to it, in
    one write, and nothing else.  Read as a configuration, the template is
    the chain mode, the DNS flag, the two timeouts 15000 and 8000, the
    [[ProxyList]] heading and under it the single entry
    socks5 127.0.0.1 9050. *)
Theorem C5_configuration_written :
  forall (w : World) (m m' : machine),
    Torlinux.configure_proxychains w m = (Ok tt, m') ->
    m' = logs [ Print "Configuring Proxychains..." (Some yellow);
                FileOpen "/etc/proxychains4.conf" "w";
                FileWrite "/etc/proxychains4.conf" Torlinux.proxychains_conf;
                Print "Proxychains configuration complete." (Some green) ] m
    /\ directives Torlinux.proxychains_conf
       = [ ["dynamic_chain"];
           ["proxy_dns"];
           ["tcp_read_time_out"; "15000"];
           ["tcp_connect_time_out"; "8000"];
           ["[ProxyList]"];
           ["socks5"; "127.0.0.1"; "9050"] ]
    /\ proxy_list (directives Torlinux.proxychains_conf)
       = [ ["socks5"; "127.0.0.1"; "9050"] ].
Proof.
  intros w m m' H. split; [|split; reflexivity].
  unfold Torlinux.configure_proxychains, print_colored in H.
  unfold bind at 1 in H. rewrite emit_logs in H.
  unfold bind at 1 in H. unfold open in H.
  destruct (can_open w _ _ _); [|discriminate].
  rewrite log_logs, logs_logs in H.
  unfold bind at 1 in H. unfold write in H.
  destruct (can_write w _ _ _); [|discriminate].
  rewrite log_logs, logs_logs, emit_logs, logs_logs in H.
  now injection H as <-.
Qed.

(** ** The scenario Down, Down, Up, Enter *)

Lemma main_windows (keys : list Z) w m :
  main Windows keys w m = menu_loop Windows (Some 0) keys w (logs started m).
Proof.
  unfold main, main_menu, initial_current_row, started.
  repeat (unfold bind at 1; cbn [ret]; rewrite ?emit_logs, ?logs_logs).
  reflexivity.
Qed.

Lemma main_linux (keys : list Z) w m :
  main Linux keys w m
  = (Raise (UnboundLocalError "current_row"),
     {| global_current_row := Some 0;
        trace := (trace m ++ started ++ header_drawn)%list |}).
Proof.
  unfold main, main_menu, initial_current_row, started.
  repeat (unfold bind at 1; cbn [store_global_current_row];
          rewrite ?emit_logs, ?logs_logs).
  rewrite menu_loop_unbound, logs_logs. reflexivity.
Qed.

(** In [torwin.py] the scenario goes as the specification says: after
    Down, Down, Up the loop waits with the selection on entry 1, and Enter
    then runs [configure_proxifier], once, and goes back to waiting. *)
Lemma torwin_scenario w m :
  let m3 := logs (started ++ pass Windows 0 KEY_DOWN ++ pass Windows 1 KEY_DOWN
                  ++ pass Windows 2 KEY_UP) m in
  main Windows [KEY_DOWN; KEY_DOWN; KEY_UP] w m
  = (Ok (AwaitingKey (Some 1)), logs (drawn Windows 1) m3)
  /\
  main Windows [KEY_DOWN; KEY_DOWN; KEY_UP; 10] w m
  = match Torwin.configure_proxifier w (at_select Windows 1 10 m3) with
    | (Ok _, m') =>
        (Ok (AwaitingKey (Some 1)), logs ([Sleep 1] ++ drawn Windows 1) m')
    | (Raise e, m') => (Raise e, m')
    end.
Proof.
  intros m3.
  assert (forall keys, main Windows (KEY_DOWN :: KEY_DOWN :: KEY_UP :: keys) w m
                       = menu_loop Windows (Some 1) keys w m3) as Hnav.
  { intros keys. rewrite main_windows.
    rewrite menu_loop_cons, handle_key_down.
    change (if 0 <? entryCount Windows - 1 then 0 + 1 else 0) with 1.
    rewrite menu_loop_cons, handle_key_down.
    change (if 1 <? entryCount Windows - 1 then 1 + 1 else 1) with 2.
    rewrite menu_loop_cons, handle_key_up.
    change (if 2 >? 0 then 2 - 1 else 2) with 1.
    unfold m3, pass. rewrite !logs_logs, <- !app_assoc. reflexivity. }
  split.
  - now rewrite Hnav, menu_loop_nil.
  - rewrite Hnav.
    rewrite menu_loop_select by (rewrite ?entryCount_6; reflexivity || lia).
    change (bound_action Windows 1) with Torwin.configure_proxifier.
    destruct (Torwin.configure_proxifier w _) as [[[]|e] m']; [|reflexivity].
    now rewrite menu_loop_nil, logs_logs.
Qed.

(** C8, on [torlinux.py]. [main] binds the module-level [current_row] to 0,
    but [main_menu] assigns to [current_row] and so reads a local of that
    name, which is unbound: the first redraw raises [UnboundLocalError]
    after the two header lines, before any key is read.  The keys Down,
    Down, Up, Enter are never processed and Configure is not run. *)
Theorem C8_torlinux_scenario_raises :
  forall w : World,
    main Linux [KEY_DOWN; KEY_DOWN; KEY_UP; 10] w boot
    = (Raise (UnboundLocalError "current_row"),
       {| global_current_row := Some 0;
          trace := started ++ header_drawn |}).
Proof. intros w. now rewrite main_linux. Qed.

(** ** torwin.py: exit statuses are not looked at *)

(** C10. In [torwin.py] Stop, Configure and the Proxifier installer run
    their program without [check]: whatever status the program exits
    with, the action prints its success message and returns normally.
    (For the installer this is from the point where the download has
    completed.) *)
Theorem C10_windows_exit_status_ignored :
  forall (w : World) (m : machine) (rc : Z) (out : string),
    (spawn w (trace m) Torwin.taskkill = Some (rc, out) ->
     Torwin.stop_tor w m
     = (Ok tt, logs [ Run Torwin.taskkill rc;
                      Print "Tor stopped." (Some green) ] m))
    /\
    (spawn w (trace (logs [Print "Configuring Proxifier..." (Some yellow)] m))
           Torwin.proxifier_addrule = Some (rc, out) ->
     Torwin.configure_proxifier w m
     = (Ok tt, logs [ Print "Configuring Proxifier..." (Some yellow);
                      Run Torwin.proxifier_addrule rc;
                      Print "Proxifier configured." (Some green) ] m))
    /\
    (forall m1 : machine,
       Torwin.download_file Torwin.PROXIFIER_URL Torwin.PROXIFIER_PATH w
         (logs [Print "Downloading Proxifier..." (Some yellow)] m) = (Ok tt, m1) ->
       spawn w (trace (logs [Print "Installing Proxifier..." (Some yellow)] m1))
             Torwin.proxifier_setup = Some (rc, out) ->
       Torwin.install_proxifier w m
       = (Ok tt, logs [ Print "Installing Proxifier..." (Some yellow);
                        Run Torwin.proxifier_setup rc;
                        Print "Proxifier installation complete." (Some green) ] m1)).
Proof.
  intros w m rc out. split; [|split].
  - intros Hrun. unfold Torwin.stop_tor, print_colored.
    unfold bind, subprocess_run. rewrite Hrun. cbn [andb].
    now rewrite emit_logs, log_logs, logs_logs.
  - intros Hrun. unfold Torwin.configure_proxifier, print_colored.
    unfold bind at 1. rewrite emit_logs.
    unfold bind, subprocess_run. rewrite Hrun. cbn [andb].
    now rewrite emit_logs, log_logs, !logs_logs.
  - intros m1 Hload Hrun. unfold Torwin.install_proxifier, print_colored.
    unfold bind at 1. rewrite emit_logs.
    unfold bind at 1. rewrite Hload.
    unfold bind at 1. rewrite emit_logs.
    unfold bind, subprocess_run. rewrite Hrun. cbn [andb].
    now rewrite emit_logs, log_logs, !logs_logs.
Qed.

(** ** The statements at concrete inputs *)

(** Five times Down from entry 0 of [torwin.py] reaches Exit; key 13 then
    returns and leaves the Up key unread. *)
Lemma C2_witness :
  is_select 13 = true /\
  menu_loop Windows (Some 0)
    [KEY_DOWN; KEY_DOWN; KEY_DOWN; KEY_DOWN; KEY_DOWN] calm boot
  = (Ok (AwaitingKey (Some (entryCount Windows - 1))),
     logs (pass Windows 0 KEY_DOWN ++ pass Windows 1 KEY_DOWN
           ++ pass Windows 2 KEY_DOWN ++ pass Windows 3 KEY_DOWN
           ++ pass Windows 4 KEY_DOWN ++ drawn Windows 5) boot) /\
  menu_loop Windows (Some 0)
    ([KEY_DOWN; KEY_DOWN; KEY_DOWN; KEY_DOWN; KEY_DOWN] ++ 13 :: [KEY_UP])
    calm boot
  = (Ok (Returned [KEY_UP]),
     logs [Getch 13]
       (logs (pass Windows 0 KEY_DOWN ++ pass Windows 1 KEY_DOWN
              ++ pass Windows 2 KEY_DOWN ++ pass Windows 3 KEY_DOWN
              ++ pass Windows 4 KEY_DOWN ++ drawn Windows 5) boot)).
Proof.
  split; [reflexivity|].
  split; [reflexivity|].
  apply (C2_select_on_exit_returns Windows 0
           [KEY_DOWN; KEY_DOWN; KEY_DOWN; KEY_DOWN; KEY_DOWN] 13 [KEY_UP]
           calm boot);
    reflexivity.
Defined.

(** Entry 3 of [torlinux.py]: Up goes to 2, Down to 4. *)
Lemma C6_witness :
  0 <= 3 <= entryCount Linux - 1 /\
  handle_key Linux (Some 3) KEY_UP calm boot
  = (Ok (Next (Some (Z.max 0 (3 - 1)))), boot) /\
  handle_key Linux (Some 3) KEY_DOWN calm boot
  = (Ok (Next (Some (Z.min (entryCount Linux - 1) (3 + 1)))), boot).
Proof.
  assert (0 <= 3 <= entryCount Linux - 1) as Hi
      by (change (entryCount Linux) with 6; lia).
  split; [exact Hi|].
  exact (C6_up_and_down Linux 3 calm boot Hi).
Defined.

(** The key [q] (113) on entry 2 of [torwin.py]. *)
Lemma C9_witness :
  (113 <> KEY_UP /\ 113 <> KEY_DOWN /\ 113 <> KEY_ENTER /\ 113 <> 10 /\ 113 <> 13)
  /\ handle_key Windows (Some 2) 113 calm boot = (Ok (Next (Some 2)), boot)
  /\ menu_loop Windows (Some 2) [113; KEY_UP] calm boot
     = menu_loop Windows (Some 2) [KEY_UP] calm
         (logs (drawn Windows 2 ++ [Getch 113; Sleep 1]) boot).
Proof.
  assert (113 <> KEY_UP /\ 113 <> KEY_DOWN /\ 113 <> KEY_ENTER
          /\ 113 <> 10 /\ 113 <> 13) as Hkey
      by (repeat split; discriminate).
  split; [exact Hkey|].
  exact (C9_other_keys_change_nothing Windows 2 113 [KEY_UP] calm boot
           (or_introl Hkey)).
Defined.

(** Enter on entry 3 of [torwin.py] runs [stop_tor]. *)
Lemma C7_witness :
  0 <= 3 <= entryCount Windows - 2 /\
  is_select 10 = true /\
  menu_loop Windows (Some 3) [10] calm boot
  = match bound_action Windows 3 calm (at_select Windows 3 10 boot) with
    | (Ok _, m') => menu_loop Windows (Some 3) [] calm (logs [Sleep 1] m')
    | (Raise e, m') => (Raise e, m')
    end.
Proof.
  assert (0 <= 3 <= entryCount Windows - 2) as Hi
      by (change (entryCount Windows) with 6; lia).
  split; [exact Hi|].
  split; [reflexivity|].
  exact (C7_select_runs_bound_action Windows 3 10 [] calm boot Hi eq_refl).
Defined.

(** apt update exits with 100 after Enter on entry 0 of [torlinux.py]. *)
Lemma C3_witness :
  is_select 10 = true /\
  required_step_fails (exiting 100 "") (at_select Linux 0 10 boot) 0
    (CalledProcessError 100 Torlinux.apt_update)
    (logs [Run Torlinux.apt_update 100]
       (logs [Print "Updating package list and installing Tor and Proxychains..."
                    (Some yellow)]
          (at_select Linux 0 10 boot))) /\
  bound_action Linux 0 (exiting 100 "") (at_select Linux 0 10 boot)
  = (Raise (CalledProcessError 100 Torlinux.apt_update),
     logs [Run Torlinux.apt_update 100]
       (logs [Print "Updating package list and installing Tor and Proxychains..."
                    (Some yellow)]
          (at_select Linux 0 10 boot))) /\
  menu_loop Linux (Some 0) [10; KEY_DOWN] (exiting 100 "") boot
  = (Raise (CalledProcessError 100 Torlinux.apt_update),
     logs [Run Torlinux.apt_update 100]
       (logs [Print "Updating package list and installing Tor and Proxychains..."
                    (Some yellow)]
          (at_select Linux 0 10 boot))).
Proof.
  assert (required_step_fails (exiting 100 "") (at_select Linux 0 10 boot) 0
            (CalledProcessError 100 Torlinux.apt_update)
            (logs [Run Torlinux.apt_update 100]
               (logs [Print "Updating package list and installing Tor and Proxychains..."
                            (Some yellow)]
                  (at_select Linux 0 10 boot)))) as Hfail.
  { apply (apt_update_fails (exiting 100 "") (at_select Linux 0 10 boot) 100 "");
      [reflexivity | discriminate]. }
  split; [reflexivity|].
  split; [exact Hfail|].
  exact (C3_failed_step_ends_action_and_loop (exiting 100 "") boot 10 [KEY_DOWN]
           0 _ _ eq_refl Hfail).
Defined.

(** A page with the sentence in it: Verify of [torwin.py] reports success. *)
Lemma C4_witness :
  spawn (exiting 0 "<p>Congratulations. This browser is configured to use Tor.</p>")
        (trace (logs [Print "Verifying Tor connection..." (Some yellow)] boot))
        (check_tor Windows)
  = Some (0, "<p>Congratulations. This browser is configured to use Tor.</p>") /\
  verify_tor Windows
    (exiting 0 "<p>Congratulations. This browser is configured to use Tor.</p>")
    boot
  = (Ok tt,
     logs [Print "Tor is successfully configured!" (Some green)]
       (logs [Run (check_tor Windows) 0]
          (logs [Print "Verifying Tor connection..." (Some yellow)] boot))).
Proof.
  split; [reflexivity|].
  apply (C4_verify_reports Windows
           (exiting 0 "<p>Congratulations. This browser is configured to use Tor.</p>")
           boot 0 "<p>Congratulations. This browser is configured to use Tor.</p>"
           eq_refl).
  exists "<p>", "</p>". reflexivity.
Defined.

(** Configure of [torlinux.py] where the file can be written. *)
Lemma C5_witness :
  Torlinux.configure_proxychains calm boot
  = (Ok tt,
     logs [ Print "Configuring Proxychains..." (Some yellow);
            FileOpen "/etc/proxychains4.conf" "w";
            FileWrite "/etc/proxychains4.conf" Torlinux.proxychains_conf;
            Print "Proxychains configuration complete." (Some green) ] boot) /\
  proxy_list (directives Torlinux.proxychains_conf)
  = [ ["socks5"; "127.0.0.1"; "9050"] ].
Proof.
  split; [reflexivity|].
  apply (C5_configuration_written calm boot _ eq_refl).
Defined.

(** Every program exits with status 1: the three actions of [torwin.py]
    still report success. *)
Lemma C10_witness :
  Torwin.stop_tor (exiting 1 "") boot
  = (Ok tt, logs [ Run Torwin.taskkill 1;
                   Print "Tor stopped." (Some green) ] boot) /\
  Torwin.configure_proxifier (exiting 1 "") boot
  = (Ok tt, logs [ Print "Configuring Proxifier..." (Some yellow);
                   Run Torwin.proxifier_addrule 1;
                   Print "Proxifier configured." (Some green) ] boot) /\
  Torwin.install_proxifier (exiting 1 "") boot
  = (Ok tt, logs [ Print "Installing Proxifier..." (Some yellow);
                   Run Torwin.proxifier_setup 1;
                   Print "Proxifier installation complete." (Some green) ]
              (logs [ Print "Downloading Proxifier..." (Some yellow);
                      HttpGet Torwin.PROXIFIER_URL;
                      FileOpen Torwin.PROXIFIER_PATH "wb";
                      FileWrite Torwin.PROXIFIER_PATH "PK" ] boot)).
Proof.
  destruct (C10_windows_exit_status_ignored (exiting 1 "") boot 1 "")
    as (Hstop & Hconf & Hinst).
  split; [exact (Hstop eq_refl)|].
  split; [exact (Hconf eq_refl)|].
  exact (Hinst _ eq_refl eq_refl).
Defined.

(** ** Navigation as a whole *)

(** The three ways the [if] / [elif] chain can go on a bound row. *)
Lemma handle_key_shape (v : variant) (row key : Z) w m :
  (is_select key = false /\
   exists row', handle_key v (Some row) key w m = (Ok (Next (Some row')), m))
  \/ (is_select key = true /\ row = entryCount v - 1 /\
      handle_key v (Some row) key w m = (Ok Break, m))
  \/ (is_select key = true /\ row <> entryCount v - 1 /\
      handle_key v (Some row) key w m
      = match dispatch v row w (logs [Clear; Refresh] m) with
        | (Ok _, m') => (Ok (Next (Some row)), m')
        | (Raise e, m') => (Raise e, m')
        end).
Proof.
  destruct (is_select key) eqn:Hsel.
  - right. destruct (Z.eq_dec row (entryCount v - 1)) as [-> | Hne].
    + left. repeat split. now apply handle_key_select_exit.
    + right. repeat split; [assumption|]. now apply handle_key_select.
  - left. split; [reflexivity|].
    destruct (key =? KEY_UP) eqn:Hup.
    { apply Z.eqb_eq in Hup; subst key. rewrite handle_key_up. eauto. }
    destruct (key =? KEY_DOWN) eqn:Hdown.
    { apply Z.eqb_eq in Hdown; subst key. rewrite handle_key_down. eauto. }
    rewrite handle_key_other by assumption. eauto.
Qed.

Lemma move_valid (v : variant) (row key : Z) :
  0 <= row <= entryCount v - 1 -> 0 <= move v row key <= entryCount v - 1.
Proof.
  unfold move. intros H.
  destruct (key =? KEY_UP); [lia|]. destruct (key =? KEY_DOWN); lia.
Qed.

Lemma handle_key_move (v : variant) (row key : Z) w m :
  0 <= row <= entryCount v - 1 -> is_select key = false ->
  handle_key v (Some row) key w m = (Ok (Next (Some (move v row key))), m).
Proof.
  intros Hrow Hsel. unfold move.
  destruct (key =? KEY_UP) eqn:Hup.
  { apply Z.eqb_eq in Hup; subst key. rewrite handle_key_up.
    destruct (Z.gtb_spec row 0) as [Hpos | Htop].
    - now rewrite Z.max_r by lia.
    - assert (row = 0) as -> by lia. reflexivity. }
  destruct (key =? KEY_DOWN) eqn:Hdown.
  { apply Z.eqb_eq in Hdown; subst key. rewrite handle_key_down.
    destruct (Z.ltb_spec row (entryCount v - 1)) as [Hlt | Hlast].
    - now rewrite Z.min_r by lia.
    - assert (row = entryCount v - 1) as -> by lia.
      now rewrite Z.min_l by lia. }
  now apply handle_key_other.
Qed.

Lemma menu_loop_navigate (v : variant) (keys : list Z) :
  forall row rest w m,
    0 <= row <= entryCount v - 1 ->
    forallb (fun key => negb (is_select key)) keys = true ->
    menu_loop v (Some row) (keys ++ rest) w m
    = menu_loop v (Some (fold_left (move v) keys row)) rest w
        (logs (nav_events v row keys) m).
Proof.
  induction keys as [|key keys IH]; intros row rest w m Hrow Hkeys.
  - simpl. now rewrite logs_nil.
  - simpl in Hkeys. apply andb_true_iff in Hkeys as [Hkey Hkeys].
    apply negb_true_iff in Hkey.
    simpl app. rewrite menu_loop_cons, handle_key_move by assumption.
    rewrite IH by (assumption || now apply move_valid).
    cbn [fold_left nav_events]. unfold pass.
    now rewrite !logs_logs, <- !app_assoc.
Qed.

Lemma downs_saturate (v : variant) (n : nat) :
  forall row,
    0 <= row <= entryCount v - 1 ->
    fold_left (move v) (repeat KEY_DOWN n) row
    = Z.min (entryCount v - 1) (row + Z.of_nat n).
Proof.
  induction n as [|n IH]; intros row Hrow.
  - simpl. lia.
  - cbn [repeat fold_left]. rewrite IH by now apply move_valid.
    unfold move. cbn [Z.eqb KEY_DOWN KEY_UP Pos.eqb]. lia.
Qed.

Lemma ups_saturate (v : variant) (n : nat) :
  forall row,
    0 <= row <= entryCount v - 1 ->
    fold_left (move v) (repeat KEY_UP n) row = Z.max 0 (row - Z.of_nat n).
Proof.
  induction n as [|n IH]; intros row Hrow.
  - simpl. lia.
  - cbn [repeat fold_left]. rewrite IH by now apply move_valid.
    unfold move. cbn [Z.eqb KEY_DOWN KEY_UP Pos.eqb]. lia.
Qed.

Lemma not_select_arrows (key : Z) (n : nat) :
  key = KEY_UP \/ key = KEY_DOWN ->
  forallb (fun key => negb (is_select key)) (repeat key n) = true.
Proof.
  intros Hkey. apply forallb_forall. intros k Hk.
  apply repeat_spec in Hk. subst k. now destruct Hkey as [-> | ->].
Qed.

(** Keys that do not select only move the selection: over any such keys,
    from a valid row, no action runs and the loop neither ends nor
    raises; it stands on the row the keys lead to, and the trace holds
    just the redraws, key reads and one-second sleeps, whatever the
    environment is. *)
Theorem navigation_runs_no_action :
  forall (v : variant) (keys : list Z) (row : Z) (rest : list Z)
         (w : World) (m : machine),
    0 <= row <= entryCount v - 1 ->
    forallb (fun key => negb (is_select key)) keys = true ->
    menu_loop v (Some row) (keys ++ rest) w m
    = menu_loop v (Some (fold_left (move v) keys row)) rest w
        (logs (nav_events v row keys) m)
    /\ 0 <= fold_left (move v) keys row <= entryCount v - 1.
Proof.
  intros v keys row rest w m Hrow Hkeys.
  split; [now apply menu_loop_navigate|].
  clear Hkeys. revert row Hrow.
  induction keys as [|key keys IH]; intros row Hrow; [exact Hrow|].
  cbn [fold_left]. now apply IH, move_valid.
Qed.

(** Repeated arrows saturate: [n] times Down from row [i] stands on
    [min (entryCount - 1) (i + n)], [n] times Up on [max 0 (i - n)]. *)
Theorem repeated_arrows_saturate :
  forall (v : variant) (i : Z) (n : nat) (rest : list Z) (w : World) (m : machine),
    0 <= i <= entryCount v - 1 ->
    menu_loop v (Some i) (repeat KEY_DOWN n ++ rest) w m
    = menu_loop v (Some (Z.min (entryCount v - 1) (i + Z.of_nat n))) rest w
        (logs (nav_events v i (repeat KEY_DOWN n)) m)
    /\
    menu_loop v (Some i) (repeat KEY_UP n ++ rest) w m
    = menu_loop v (Some (Z.max 0 (i - Z.of_nat n))) rest w
        (logs (nav_events v i (repeat KEY_UP n)) m).
Proof.
  intros v i n rest w m Hi. split.
  - rewrite menu_loop_navigate by (assumption || apply not_select_arrows; tauto).
    now rewrite downs_saturate.
  - rewrite menu_loop_navigate by (assumption || apply not_select_arrows; tauto).
    now rewrite ups_saturate.
Qed.

(** The menu can always be left: from any valid row, enough Down keys to
    reach the last entry followed by a select key end the loop, with no
    action run and the remaining keys unread. *)
Theorem exit_always_reachable :
  forall (v : variant) (i : Z) (n : nat) (key : Z) (rest : list Z)
         (w : World) (m : machine),
    0 <= i <= entryCount v - 1 ->
    entryCount v - 1 - i <= Z.of_nat n ->
    is_select key = true ->
    menu_loop v (Some i) (repeat KEY_DOWN n ++ key :: rest) w m
    = (Ok (Returned rest),
       logs (nav_events v i (repeat KEY_DOWN n)
             ++ drawn v (entryCount v - 1) ++ [Getch key]) m).
Proof.
  intros v i n key rest w m Hi Hn Hsel.
  rewrite menu_loop_navigate by (assumption || apply not_select_arrows; tauto).
  rewrite downs_saturate, Z.min_l by (assumption || lia).
  rewrite menu_loop_cons, handle_key_select_exit by assumption.
  now rewrite logs_logs.
Qed.

(** The only way out: if the loop returns, the last key read was a select
    key, read while the selection stood on the last entry (Exit), and the
    unread keys are the ones after it. *)
Theorem returns_only_by_select_on_exit :
  forall (v : variant) (keys : list Z) (row : Z) (w : World) (m : machine)
         (unread : list Z) (m' : machine),
    menu_loop v (Some row) keys w m = (Ok (Returned unread), m') ->
    exists history key m1,
      keys = (history ++ key :: unread)%list /\
      is_select key = true /\
      menu_loop v (Some row) history w m
      = (Ok (AwaitingKey (Some (entryCount v - 1))), m1) /\
      m' = logs [Getch key] m1.
Proof.
  intros v keys. induction keys as [|key keys IH]; intros row w m unread m' H.
  - rewrite menu_loop_nil in H. discriminate.
  - rewrite menu_loop_cons in H.
    destruct (handle_key_shape v row key w (logs (drawn v row ++ [Getch key]) m))
      as [[Hsel [row' Hk]] | [[Hsel [Hrow Hk]] | [Hsel [Hrow Hk]]]].
    + rewrite Hk in H. apply IH in H as (history & k & m1 & -> & Hk1 & Hrun & ->).
      exists (key :: history), k, m1. repeat split; try assumption.
      now rewrite menu_loop_cons, Hk.
    + rewrite Hk in H. injection H as <- <-. subst row.
      exists [], key, (logs (drawn v (entryCount v - 1)) m).
      repeat split; try assumption.
      * apply menu_loop_nil.
      * now rewrite logs_logs.
    + rewrite Hk in H.
      destruct (dispatch v row w _) as [[[]|e] m2] eqn:Hd; [|discriminate].
      apply IH in H as (history & k & m1 & -> & Hk1 & Hrun & ->).
      exists (key :: history), k, m1. repeat split; try assumption.
      now rewrite menu_loop_cons, Hk.
Qed.

(** [torlinux.py] cannot be used at all: started at [main] or at
    [main_menu], with any keys waiting and in any environment, it raises
    [UnboundLocalError] at the first redraw; no key is read and nothing
    outside the screen is touched.  The name [main] bound at module level
    is 0 and is never read. *)
Theorem torlinux_never_reads_a_key :
  forall (keys : list Z) (w : World) (m : machine),
    main_menu Linux keys w m
    = (Raise (UnboundLocalError "current_row"),
       logs ([CursSet 0; Clear; Refresh] ++ header_drawn) m)
    /\
    main Linux keys w m
    = (Raise (UnboundLocalError "current_row"),
       {| global_current_row := Some 0;
          trace := (trace m ++ started ++ header_drawn)%list |}).
Proof.
  intros keys w m. split; [|apply main_linux].
  unfold main_menu, initial_current_row.
  repeat (unfold bind at 1; rewrite ?emit_logs, ?logs_logs).
  now rewrite menu_loop_unbound, logs_logs.
Qed.

(** ** What a run can do to the outside *)

Section Confinement.

Variable P : event -> Prop.
Variable Q : exn -> Prop.

Lemma confined_ret {A} (a : A) : confined P Q (ret a).
Proof.
  intros w m. split; [|discriminate].
  exists []. now rewrite logs_nil.
Qed.

Lemma confined_raise {A} (e : exn) : Q e -> confined P Q (@raise A e).
Proof.
  intros He w m. split.
  - exists []. now rewrite logs_nil.
  - simpl. now intros e' [= <-].
Qed.

Lemma confined_emit (e : event) : P e -> confined P Q (emit e).
Proof.
  intros He w m. split; [|discriminate].
  exists [e]. split; [reflexivity | now constructor].
Qed.

Lemma confined_bind {A B} (c : M A) (k : A -> M B) :
  confined P Q c -> (forall a, confined P Q (k a)) -> confined P Q (bind c k).
Proof.
  intros Hc Hk w m. destruct (Hc w m) as [[es1 [Hm1 Hes1]] Hraise1].
  unfold bind. destruct (c w m) as [[a|e] m1]; simpl in Hm1, Hraise1; subst m1.
  - destruct (Hk a w (logs es1 m)) as [[es2 [Hm2 Hes2]] Hraise2].
    split; [|exact Hraise2].
    exists (es1 ++ es2)%list. rewrite Hm2, logs_logs.
    split; [reflexivity | now apply Forall_app].
  - split; [now exists es1|].
    simpl. intros e' [= <-]. now apply Hraise1.
Qed.

Lemma confined_run (argv : list string) (check : bool) :
  (forall rc, P (Run argv rc)) ->
  Q (OSError (hd "" argv)) ->
  (check = true -> forall rc, rc <> 0 -> Q (CalledProcessError rc argv)) ->
  confined P Q (subprocess_run argv check).
Proof.
  intros Hrun Hos Hcheck w m. unfold subprocess_run.
  destruct (spawn w (trace m) argv) as [[rc out]|].
  - destruct check; cbn [andb].
    + assert (exists es, log (Run argv rc) m = logs es m /\ Forall P es) as Hlog
          by (exists [Run argv rc]; split; [reflexivity | now constructor]).
      destruct (Z.eqb_spec rc 0) as [Hzero | Hrc]; cbn [negb];
        (split; [exact Hlog|]).
      * discriminate.
      * simpl. intros e [= <-]. now apply Hcheck.
    + split; [|discriminate].
      exists [Run argv rc]. split; [reflexivity | now constructor].
  - split; [exists []; now rewrite logs_nil |].
    simpl. now intros e [= <-].
Qed.

Lemma confined_Popen (argv : list string) :
  P (Popen argv) -> Q (OSError (hd "" argv)) ->
  confined P Q (subprocess_Popen argv).
Proof.
  intros Hp Hos w m. unfold subprocess_Popen.
  destruct (spawn w (trace m) argv) as [[rc out]|].
  - split; [|discriminate].
    exists [Popen argv]. split; [reflexivity | now constructor].
  - split; [exists []; now rewrite logs_nil |].
    simpl. now intros e [= <-].
Qed.

Lemma confined_open (path mode : string) :
  P (FileOpen path mode) -> Q (OSError path) -> confined P Q (open path mode).
Proof.
  intros Hp Hos w m. unfold open.
  destruct (can_open w (trace m) path mode).
  - split; [|discriminate].
    exists [FileOpen path mode]. split; [reflexivity | now constructor].
  - split; [exists []; now rewrite logs_nil |].
    simpl. now intros e [= <-].
Qed.

Lemma confined_write (path data : string) :
  P (FileWrite path data) -> Q (OSError path) -> confined P Q (write path data).
Proof.
  intros Hp Hos w m. unfold write.
  destruct (can_write w (trace m) path data).
  - split; [|discriminate].
    exists [FileWrite path data]. split; [reflexivity | now constructor].
  - split; [exists []; now rewrite logs_nil |].
    simpl. now intros e [= <-].
Qed.

Lemma confined_next_chunk (url : string) :
  Q (RequestException url) -> confined P Q (Torwin.next_chunk url).
Proof.
  intros Hreq w m. unfold Torwin.next_chunk.
  destruct (stream_breaks w (trace m) url).
  - split; [exists []; now rewrite logs_nil |].
    simpl. now intros e [= <-].
  - split; [exists []; now rewrite logs_nil | discriminate].
Qed.

Lemma confined_write_chunks (url dest_path : string) (chunks : list string) :
  Q (RequestException url) ->
  (forall data, P (FileWrite dest_path data)) -> Q (OSError dest_path) ->
  confined P Q (Torwin.write_chunks url dest_path chunks).
Proof.
  intros Hreq Hp Hos.
  induction chunks as [|chunk chunks IH]; cbn [Torwin.write_chunks].
  - now apply confined_next_chunk.
  - apply confined_bind; [now apply confined_next_chunk | intros _].
    apply confined_bind; [now apply confined_write | intros _; exact IH].
Qed.

Lemma confined_download_file (url dest_path : string) :
  P (HttpGet url) -> Q (RequestException url) ->
  P (FileOpen dest_path "wb") ->
  (forall data, P (FileWrite dest_path data)) -> Q (OSError dest_path) ->
  confined P Q (Torwin.download_file url dest_path).
Proof.
  intros Hget Hreq Hopen Hwrite Hos. unfold Torwin.download_file.
  apply confined_bind.
  - intros w m. unfold Torwin.requests_get.
    destruct (fetch w (trace m) url) as [chunks|].
    + split; [|discriminate].
      exists [HttpGet url]. split; [reflexivity | now constructor].
    + split; [exists []; now rewrite logs_nil |].
      simpl. now intros e [= <-].
  - intros chunks. apply confined_bind; [now apply confined_open|].
    intros _. now apply confined_write_chunks.
Qed.

Lemma confined_extract_zip (file_path extract_to : string) :
  P (ExtractAll file_path extract_to) -> Q (BadZipFile file_path) ->
  confined P Q (Torwin.extract_zip file_path extract_to).
Proof.
  intros Hp Hbad w m. unfold Torwin.extract_zip.
  destruct (can_extract w (trace m) file_path extract_to).
  - split; [|discriminate].
    exists [ExtractAll file_path extract_to]. split; [reflexivity | now constructor].
  - split; [exists []; now rewrite logs_nil |].
    simpl. now intros e [= <-].
Qed.

End Confinement.

Ltac confine_side :=
  cbv [torwin_exn torlinux_exn torwin_event torlinux_event In];
  solve [ repeat first
            [ exact I | split | reflexivity | assumption
            | left; reflexivity | right ] ].

Ltac confine :=
  repeat first
    [ apply confined_ret
    | apply confined_emit; confine_side
    | apply confined_run;
        [ intros ?; confine_side
        | confine_side
        | first [ discriminate | intros _ ? ?; confine_side ] ]
    | apply confined_Popen; confine_side
    | apply confined_open; confine_side
    | apply confined_write; confine_side
    | apply confined_download_file;
        [ confine_side | confine_side | confine_side
        | intros ?; confine_side | confine_side ]
    | apply confined_extract_zip; confine_side
    | apply confined_bind; [|intros ?] ].

Lemma dispatch_confined (v : variant) (row : Z) :
  confined (variant_event v) (variant_exn v) (dispatch v row).
Proof.
  unfold dispatch.
  destruct (row =? 0); [|destruct (row =? 1); [|destruct (row =? 2);
    [|destruct (row =? 3); [|destruct (row =? 4); [|apply confined_ret]]]]];
    destruct v; cbn [variant_event variant_exn].
  - unfold Torlinux.install_packages, print_colored. confine.
  - unfold Torwin.install_tor, print_colored. confine.
  - unfold Torlinux.configure_proxychains, print_colored. confine.
  - unfold Torwin.configure_proxifier, print_colored. confine.
  - unfold Torlinux.start_tor, print_colored, sleep. confine.
  - unfold Torwin.start_tor, print_colored, sleep. confine.
  - unfold Torlinux.stop_tor, print_colored. confine.
  - unfold Torwin.stop_tor, print_colored. confine.
  - unfold Torlinux.verify_tor, print_colored, print. confine.
    destruct (str_in _ _); confine.
  - unfold Torwin.verify_tor, print_colored, print. confine.
    destruct (str_in _ _); confine.
Qed.

Lemma entries_drawn_screen (P : event -> Prop) (row : Z) (items : list string) :
  (forall y x text attr, P (Addstr y x text attr)) ->
  forall idx, Forall P (entries_drawn row idx items).
Proof.
  intros Hp. induction items as [|item items IH]; intros idx; simpl.
  - constructor.
  - constructor; [apply Hp | apply IH].
Qed.

Lemma drawn_screen (v : variant) (row : Z) : Forall (variant_event v) (drawn v row).
Proof.
  unfold drawn, header_drawn.
  repeat (apply Forall_app; split).
  - repeat constructor; now destruct v.
  - apply entries_drawn_screen. now destruct v.
  - repeat constructor; now destruct v.
Qed.

Lemma loop_events (v : variant) (key : Z) :
  variant_event v (Getch key) /\ variant_event v (Sleep 1) /\
  variant_event v Clear /\ variant_event v Refresh.
Proof. destruct v; simpl; tauto. Qed.

Lemma menu_loop_confined (v : variant) (keys : list Z) :
  forall row, confined (variant_event v) (variant_exn v)
                (menu_loop v (Some row) keys).
Proof.
  induction keys as [|key keys IH]; intros row w m.
  - rewrite menu_loop_nil. split; [|discriminate].
    exists (drawn v row). split; [reflexivity | apply drawn_screen].
  - rewrite menu_loop_cons.
    destruct (loop_events v key) as (Hgetch & Hsleep & Hclear & Hrefresh).
    pose proof (drawn_screen v row) as Hdrawn.
    destruct (handle_key_shape v row key w (logs (drawn v row ++ [Getch key]) m))
      as [[Hsel [row' Hk]] | [[Hsel [Hrow Hk]] | [Hsel [Hrow Hk]]]]; rewrite Hk.
    + destruct (IH row' w (logs [Sleep 1] (logs (drawn v row ++ [Getch key]) m)))
        as [[es [Hes Hall]] Hraise].
      split; [|exact Hraise].
      exists ((drawn v row ++ [Getch key]) ++ [Sleep 1] ++ es)%list.
      rewrite Hes, !logs_logs, <- !app_assoc. split; [reflexivity|].
      rewrite !Forall_app. repeat split; try assumption; now repeat constructor.
    + split; [|discriminate].
      exists (drawn v row ++ [Getch key])%list. split; [reflexivity|].
      rewrite Forall_app. split; [assumption | now repeat constructor].
    + destruct (dispatch_confined v row w
                  (logs [Clear; Refresh] (logs (drawn v row ++ [Getch key]) m)))
        as [[es1 [Hes1 Hall1]] Hraise1].
      destruct (dispatch v row w _) as [[[]|e] m1];
        cbn [fst snd] in Hes1, Hraise1; subst m1; cbv beta iota.
      * destruct (IH row w (logs [Sleep 1]
                    (logs es1 (logs [Clear; Refresh]
                       (logs (drawn v row ++ [Getch key]) m)))))
          as [[es [Hes Hall]] Hraise].
        split; [|exact Hraise].
        exists ((drawn v row ++ [Getch key]) ++ [Clear; Refresh] ++ es1
                ++ [Sleep 1] ++ es)%list.
        rewrite Hes, !logs_logs, <- !app_assoc. split; [reflexivity|].
        rewrite !Forall_app. repeat split; try assumption; now repeat constructor.
      * split.
        -- exists ((drawn v row ++ [Getch key]) ++ [Clear; Refresh] ++ es1)%list.
           rewrite !logs_logs, <- !app_assoc. split; [reflexivity|].
           rewrite !Forall_app. repeat split; try assumption; now repeat constructor.
        -- simpl. intros e' [= <-]. now apply Hraise1.
Qed.

(** Whatever keys arrive and whatever the environment answers, a run of
    [torlinux.py]'s loop only draws, reads keys, prints, sleeps 1 or 10
    seconds, runs one of its five fixed commands, and opens
    /etc/proxychains4.conf for writing and writes the template to it: no
    other program is run, no other file is opened or written, nothing is
    downloaded or unpacked. *)
Theorem torlinux_loop_touches_only :
  forall (keys : list Z) (row : Z) (w : World) (m : machine),
    exists es,
      snd (menu_loop Linux (Some row) keys w m) = logs es m /\
      Forall torlinux_event es.
Proof. intros keys row w m. apply (menu_loop_confined Linux keys row w m). Qed.

(** Exit statuses in [torlinux.py]'s loop (entered with [current_row]
    bound): a [CalledProcessError] that leaves it carries a non-zero
    status and names one of the four commands run with [check=True], apt
    update, apt install, systemctl start or systemctl stop.  A status of 0
    never raises, and no status of the Verify check (run without
    [check]) ever does. *)
Theorem torlinux_loop_CalledProcessError :
  forall (keys : list Z) (row : Z) (w : World) (m : machine),
    match fst (menu_loop Linux (Some row) keys w m) with
    | Raise (CalledProcessError returncode cmd) =>
        returncode <> 0 /\
        In cmd [ Torlinux.apt_update; Torlinux.apt_install;
                 Torlinux.systemctl_start; Torlinux.systemctl_stop ]
    | _ => True
    end.
Proof.
  intros keys row w m.
  destruct (menu_loop_confined Linux keys row w m) as [_ Hraise].
  destruct (fst (menu_loop Linux (Some row) keys w m)) as [o|e]; [exact I|].
  specialize (Hraise e eq_refl). now destruct e.
Qed.

Lemma main_windows_confined (keys : list Z) w m :
  (exists es,
      snd (main Windows keys w m) = logs (started ++ es) m /\
      Forall torwin_event es) /\
  (forall e, fst (main Windows keys w m) = Raise e -> torwin_exn e).
Proof.
  rewrite main_windows.
  destruct (menu_loop_confined Windows keys 0 w (logs started m))
    as [[es [Hes Hall]] Hraise].
  split; [|exact Hraise].
  exists es. now rewrite Hes, logs_logs.
Qed.

(** After its start-up, a run of [torwin.py] from [main] only draws,
    reads keys, prints, sleeps 1 or 10 seconds, runs ProxifierCLI.exe
    addrule, taskkill or curl with their fixed arguments, starts tor.exe,
    downloads the Tor archive into tor.zip and unpacks tor.zip into
    C:\Tor. *)
Theorem torwin_main_touches_only :
  forall (keys : list Z) (w : World) (m : machine),
    exists es,
      snd (main Windows keys w m) = logs (started ++ es) m /\
      Forall torwin_event es.
Proof. intros keys w m. apply main_windows_confined. Qed.

(** No exit status can end [torwin.py]: whatever keys arrive and whatever
    statuses ProxifierCLI.exe, taskkill and curl exit with, a run from
    [main] never ends with [CalledProcessError], since no program is run
    with [check=True]. *)
Theorem torwin_main_never_CalledProcessError :
  forall (keys : list Z) (w : World) (m : machine),
    match fst (main Windows keys w m) with
    | Raise (CalledProcessError _ _) => False
    | _ => True
    end.
Proof.
  intros keys w m.
  destruct (main_windows_confined keys w m) as [_ Hraise].
  destruct (fst (main Windows keys w m)) as [o|e]; [exact I|].
  specialize (Hraise e eq_refl). destruct e; try exact I.
  unfold torwin_exn in Hraise. simpl in Hraise.
  repeat (destruct Hraise as [Hraise | Hraise]; [discriminate|]).
  exact Hraise.
Qed.

(** The first entry of [torwin.py]'s menu reads Install Tor and
    Proxifier, but no run ever installs Proxifier: [install_proxifier] is
    never called, so ProxifierSetup.exe is neither downloaded, nor
    written, nor run. *)
Theorem torwin_never_installs_proxifier :
  forall (keys : list Z) (w : World) (m : machine),
    exists es,
      snd (main Windows keys w m) = logs (started ++ es) m /\
      ~ In (HttpGet Torwin.PROXIFIER_URL) es /\
      (forall mode, ~ In (FileOpen Torwin.PROXIFIER_PATH mode) es) /\
      (forall data, ~ In (FileWrite Torwin.PROXIFIER_PATH data) es) /\
      (forall rc, ~ In (Run Torwin.proxifier_setup rc) es).
Proof.
  intros keys w m.
  destruct (main_windows_confined keys w m) as [[es [Hes Hall]] _].
  exists es. split; [exact Hes|].
  rewrite Forall_forall in Hall.
  repeat split; intros; intros Hin; apply Hall in Hin; simpl in Hin.
  - discriminate.
  - destruct Hin; discriminate.
  - discriminate.
  - destruct Hin as [H | [H | [H | []]]]; discriminate.
Qed.

(** ** Files: the download and the configuration *)

Lemma append_empty_r (s : string) : (s ++ "")%string = s.
Proof. induction s as [|c s IH]; simpl; [reflexivity | now rewrite IH]. Qed.

Lemma append_assoc_string (a b c : string) :
  ((a ++ b) ++ c)%string = (a ++ (b ++ c))%string.
Proof. induction a as [|x a IH]; simpl; [reflexivity | now rewrite IH]. Qed.

Lemma file_content_app (path : string) (es1 es2 : list event) :
  file_content path (es1 ++ es2)
  = fold_left (apply_event path) es2 (file_content path es1).
Proof. unfold file_content. apply fold_left_app. Qed.

Lemma writes_append (path : string) (chunks : list string) :
  forall held,
    fold_left (apply_event path) (map (FileWrite path) chunks) (Some held)
    = Some (held ++ joined chunks)%string.
Proof.
  induction chunks as [|chunk chunks IH]; intros held.
  - simpl. now rewrite append_empty_r.
  - cbn [map fold_left apply_event]. rewrite String.eqb_refl. cbn [option_map].
    rewrite IH. cbn [joined fold_right]. now rewrite append_assoc_string.
Qed.

(** A file opened with mode wb and then written to chunk by chunk holds
    the chunks put together, whatever happened before. *)
Lemma content_after_download (url dest_path : string) (written : list string)
  (m : machine) :
  file_content dest_path (trace (logs (downloaded url dest_path written) m))
  = Some (joined written).
Proof.
  unfold downloaded. cbn [logs trace]. rewrite file_content_app.
  cbn [fold_left apply_event]. rewrite String.eqb_refl. cbn [andb orb String.eqb Ascii.eqb Bool.eqb].
  apply (writes_append dest_path written "").
Qed.

Lemma write_chunks_step (url dest_path chunk : string) (chunks : list string) w m :
  Torwin.write_chunks url dest_path (chunk :: chunks) w m
  = if stream_breaks w (trace m) url
    then (Raise (RequestException url), m)
    else if can_write w (trace m) dest_path chunk
         then Torwin.write_chunks url dest_path chunks w
                (logs [FileWrite dest_path chunk] m)
         else (Raise (OSError dest_path), m).
Proof.
  cbn [Torwin.write_chunks]. unfold bind at 1. unfold Torwin.next_chunk.
  destruct (stream_breaks w (trace m) url); [reflexivity|].
  unfold bind, write.
  now destruct (can_write w (trace m) dest_path chunk).
Qed.

(** How the loop over the chunks can end: all written, a write failed,
    or the connection broke; [written] are the chunks that reached the
    file. *)
Lemma write_chunks_shape (url dest_path : string) (chunks : list string) :
  forall w m,
    Torwin.write_chunks url dest_path chunks w m
    = (Ok tt, logs (map (FileWrite dest_path) chunks) m)
    \/ (exists written chunk later,
          chunks = (written ++ chunk :: later)%list /\
          Torwin.write_chunks url dest_path chunks w m
          = (Raise (OSError dest_path),
             logs (map (FileWrite dest_path) written) m))
    \/ (exists written later,
          chunks = (written ++ later)%list /\
          Torwin.write_chunks url dest_path chunks w m
          = (Raise (RequestException url),
             logs (map (FileWrite dest_path) written) m)).
Proof.
  induction chunks as [|chunk chunks IH]; intros w m.
  - cbn [Torwin.write_chunks]. unfold Torwin.next_chunk.
    destruct (stream_breaks w (trace m) url).
    + right. right. exists [], []. split; [reflexivity|].
      simpl. now rewrite logs_nil.
    + left. simpl. now rewrite logs_nil.
  - rewrite write_chunks_step.
    destruct (stream_breaks w (trace m) url).
    { right. right. exists [], (chunk :: chunks). split; [reflexivity|].
      simpl. now rewrite logs_nil. }
    destruct (can_write w (trace m) dest_path chunk).
    + destruct (IH w (logs [FileWrite dest_path chunk] m))
        as [Hok | [(written & c & later & Hsplit & Hfail)
                  | (written & later & Hsplit & Hfail)]].
      * left. now rewrite Hok, logs_logs.
      * right. left. exists (chunk :: written), c, later.
        split; [now rewrite Hsplit|]. now rewrite Hfail, logs_logs.
      * right. right. exists (chunk :: written), later.
        split; [now rewrite Hsplit|]. now rewrite Hfail, logs_logs.
    + right. left. exists [], chunk, chunks. split; [reflexivity|].
      simpl. now rewrite logs_nil.
Qed.

(** How [download_file] can end. *)
Lemma download_file_shape (url dest_path : string) w m :
  (fetch w (trace m) url = None /\
   Torwin.download_file url dest_path w m = (Raise (RequestException url), m))
  \/ exists chunks,
       fetch w (trace m) url = Some chunks /\
       (Torwin.download_file url dest_path w m
        = (Raise (OSError dest_path), logs [HttpGet url] m)
        \/ Torwin.download_file url dest_path w m
           = (Ok tt, logs (downloaded url dest_path chunks) m)
        \/ (exists written chunk later,
              chunks = (written ++ chunk :: later)%list /\
              Torwin.download_file url dest_path w m
              = (Raise (OSError dest_path),
                 logs (downloaded url dest_path written) m))
        \/ (exists written later,
              chunks = (written ++ later)%list /\
              Torwin.download_file url dest_path w m
              = (Raise (RequestException url),
                 logs (downloaded url dest_path written) m))).
Proof.
  assert (Torwin.download_file url dest_path w m
          = match fetch w (trace m) url with
            | None => (Raise (RequestException url), m)
            | Some chunks =>
                if can_open w (trace (logs [HttpGet url] m)) dest_path "wb"
                then Torwin.write_chunks url dest_path chunks w
                       (logs [HttpGet url; FileOpen dest_path "wb"] m)
                else (Raise (OSError dest_path), logs [HttpGet url] m)
            end) as Hstep.
  { unfold Torwin.download_file, Torwin.requests_get, bind, open.
    destruct (fetch w (trace m) url) as [chunks|]; [|reflexivity].
    rewrite log_logs. destruct (can_open w _ dest_path "wb"); [|reflexivity].
    now rewrite log_logs, logs_logs. }
  rewrite Hstep.
  destruct (fetch w (trace m) url) as [chunks|]; [|now left].
  right. exists chunks. split; [reflexivity|].
  destruct (can_open w _ dest_path "wb"); [|now left].
  right.
  destruct (write_chunks_shape url dest_path chunks w
              (logs [HttpGet url; FileOpen dest_path "wb"] m))
    as [Hok | [(written & c & later & Hsplit & Hfail)
              | (written & later & Hsplit & Hfail)]].
  - left. rewrite Hok, logs_logs. reflexivity.
  - right. left. exists written, c, later. split; [assumption|].
    rewrite Hfail, logs_logs. reflexivity.
  - right. right. exists written, later. split; [assumption|].
    rewrite Hfail, logs_logs. reflexivity.
Qed.

(** A download that returns has stored the body: the request was
    answered, the destination was opened with mode wb, every chunk was
    written in order, and the file then holds exactly the chunks put
    together, replacing whatever it held.  An empty body leaves an empty
    file. *)
Theorem download_file_stores_body :
  forall (url dest_path : string) (w : World) (m m' : machine),
    Torwin.download_file url dest_path w m = (Ok tt, m') ->
    exists chunks,
      fetch w (trace m) url = Some chunks /\
      m' = logs (downloaded url dest_path chunks) m /\
      file_content dest_path (trace m') = Some (joined chunks).
Proof.
  intros url dest_path w m m' H.
  destruct (download_file_shape url dest_path w m)
    as [[_ Hd] | (chunks & Hfetch
                  & [Hd | [Hd | [(wr & c & l & _ & Hd) | (wr & l & _ & Hd)]]])];
    rewrite Hd in H; try discriminate.
  injection H as <-. exists chunks.
  repeat split; [assumption|]. apply content_after_download.
Qed.


Lemma install_tor_step w m :
  Torwin.install_tor w m
  = match Torwin.download_file Torwin.TOR_URL Torwin.TOR_ZIP_PATH w
            (logs [Print "Downloading Tor..." (Some yellow)] m) with
    | (Raise e, m2) => (Raise e, m2)
    | (Ok _, m2) =>
        if can_extract w (trace (logs [Print "Extracting Tor..." (Some yellow)] m2))
             Torwin.TOR_ZIP_PATH Torwin.TOR_INSTALL_PATH
        then (Ok tt,
              logs [ Print "Extracting Tor..." (Some yellow);
                     ExtractAll Torwin.TOR_ZIP_PATH Torwin.TOR_INSTALL_PATH;
                     Print "Tor installation complete." (Some green) ] m2)
        else (Raise (BadZipFile Torwin.TOR_ZIP_PATH),
              logs [Print "Extracting Tor..." (Some yellow)] m2)
    end.
Proof.
  unfold Torwin.install_tor, print_colored.
  unfold bind at 1. rewrite emit_logs.
  unfold bind at 1.
  destruct (Torwin.download_file _ _ w _) as [[[]|e] m2]; [|reflexivity].
  unfold bind at 1. rewrite emit_logs.
  unfold bind at 1. unfold Torwin.extract_zip.
  destruct (can_extract w _ _ _); [|reflexivity].
  now rewrite log_logs, emit_logs, !logs_logs.
Qed.

(** Install of [torwin.py], when it returns, has done its steps in
    order: the body the server sent for the Tor archive was written to
    tor.zip, every chunk of it, before the extraction started; tor.zip
    holds exactly that body; and it was unpacked into C:\Tor once. *)
Theorem install_tor_completed :
  forall (w : World) (m m' : machine),
    Torwin.install_tor w m = (Ok tt, m') ->
    exists chunks,
      fetch w (trace (logs [Print "Downloading Tor..." (Some yellow)] m))
            Torwin.TOR_URL = Some chunks /\
      m' = logs ([Print "Downloading Tor..." (Some yellow)]
                 ++ downloaded Torwin.TOR_URL Torwin.TOR_ZIP_PATH chunks
                 ++ [ Print "Extracting Tor..." (Some yellow);
                      ExtractAll Torwin.TOR_ZIP_PATH Torwin.TOR_INSTALL_PATH;
                      Print "Tor installation complete." (Some green) ]) m
      /\ file_content Torwin.TOR_ZIP_PATH (trace m') = Some (joined chunks).
Proof.
  intros w m m' H. rewrite install_tor_step in H.
  destruct (download_file_shape Torwin.TOR_URL Torwin.TOR_ZIP_PATH w
              (logs [Print "Downloading Tor..." (Some yellow)] m))
    as [[_ Hd] | (chunks & Hfetch
                  & [Hd | [Hd | [(wr & c & l & _ & Hd) | (wr & l & _ & Hd)]]])];
    rewrite Hd in H; try discriminate.
  destruct (can_extract w _ _ _); [|discriminate].
  injection H as <-. exists chunks. split; [exact Hfetch|]. split.
  - now rewrite !logs_logs.
  - pose proof (content_after_download Torwin.TOR_URL Torwin.TOR_ZIP_PATH chunks
                  (logs [Print "Downloading Tor..." (Some yellow)] m)) as Hheld.
    cbn [logs trace] in Hheld |- *.
    now rewrite file_content_app, Hheld.
Qed.

Lemma configure_proxychains_step w m :
  Torlinux.configure_proxychains w m
  = let m1 := logs [Print "Configuring Proxychains..." (Some yellow)] m in
    if can_open w (trace m1) Torlinux.conf_path "w"
    then
      let m2 := logs [FileOpen Torlinux.conf_path "w"] m1 in
      if can_write w (trace m2) Torlinux.conf_path Torlinux.proxychains_conf
      then (Ok tt,
            logs [ FileWrite Torlinux.conf_path Torlinux.proxychains_conf;
                   Print "Proxychains configuration complete." (Some green) ] m2)
      else (Raise (OSError Torlinux.conf_path), m2)
    else (Raise (OSError Torlinux.conf_path), m1).
Proof.
  unfold Torlinux.configure_proxychains, print_colored.
  unfold bind at 1. rewrite emit_logs.
  unfold bind at 1. unfold open.
  destruct (can_open w _ _ _); [|reflexivity].
  rewrite log_logs. unfold bind at 1. unfold write. cbv zeta.
  destruct (can_write w _ _ _); [|reflexivity].
  now rewrite log_logs, emit_logs, logs_logs.
Qed.

(** Configure is idempotent on the file: after any run of it that
    returns, /etc/proxychains4.conf holds exactly the template, whatever
    was done to the file before, earlier runs of Configure included. *)
Theorem configure_overwrites_file :
  forall (w : World) (m m' : machine),
    Torlinux.configure_proxychains w m = (Ok tt, m') ->
    file_content Torlinux.conf_path (trace m') = Some Torlinux.proxychains_conf.
Proof.
  intros w m m' H. rewrite configure_proxychains_step in H. cbv zeta in H.
  destruct (can_open w _ _ _); [|discriminate].
  destruct (can_write w _ _ _); [|discriminate].
  injection H as <-. rewrite !logs_logs. cbn [logs trace].
  now rewrite file_content_app.
Qed.


(** ** Completed actions *)

Lemma checked_run_ok (argv : list string) w m (r : Z * string) m' :
  subprocess_run argv true w m = (Ok r, m') ->
  m' = logs [Run argv 0] m.
Proof.
  unfold subprocess_run. destruct (spawn w (trace m) argv) as [[rc out]|];
    [|discriminate].
  cbn [andb]. destruct (Z.eqb_spec rc 0) as [-> | Hrc]; cbn [negb];
    [|discriminate].
  now intros [= _ <-].
Qed.

(** Install, Start and Stop of [torlinux.py] report success only after
    their commands succeeded: when such an action returns, each of its
    commands has run once, in order, and exited with status 0 (apt
    install only after apt update), Start has slept 10 seconds, and the
    success message is the last thing printed. *)
Theorem torlinux_completed_actions :
  forall (i : Z) (w : World) (m m' : machine),
    i = 0 \/ i = 2 \/ i = 3 ->
    bound_action Linux i w m = (Ok tt, m') ->
    m' = logs (torlinux_completed i) m.
Proof.
  intros i w m m' [-> | [-> | ->]] H; unfold bound_action in H; simpl nth in H.
  - unfold Torlinux.install_packages, print_colored in H.
    unfold bind at 1 in H. rewrite emit_logs in H.
    unfold bind at 1 in H.
    destruct (subprocess_run Torlinux.apt_update true w _) as [[r1|e1] m1] eqn:H1;
      [|discriminate].
    apply checked_run_ok in H1. subst m1.
    unfold bind at 1 in H.
    destruct (subprocess_run Torlinux.apt_install true w _) as [[r2|e2] m2] eqn:H2;
      [|discriminate].
    apply checked_run_ok in H2. subst m2.
    rewrite emit_logs, !logs_logs in H. now injection H as <-.
  - unfold Torlinux.start_tor, print_colored, sleep in H.
    unfold bind at 1 in H. rewrite emit_logs in H.
    unfold bind at 1 in H.
    destruct (subprocess_run Torlinux.systemctl_start true w _) as [[r1|e1] m1] eqn:H1;
      [|discriminate].
    apply checked_run_ok in H1. subst m1.
    unfold bind in H. rewrite !emit_logs, !logs_logs in H.
    now injection H as <-.
  - unfold Torlinux.stop_tor, print_colored in H.
    unfold bind at 1 in H. rewrite emit_logs in H.
    unfold bind at 1 in H.
    destruct (subprocess_run Torlinux.systemctl_stop true w _) as [[r1|e1] m1] eqn:H1;
      [|discriminate].
    apply checked_run_ok in H1. subst m1.
    rewrite emit_logs, !logs_logs in H. now injection H as <-.
Qed.

(** Start of [torwin.py] does not check that Tor runs.  If tor.exe
    cannot be started the action raises at once, before printing
    anything; if it can, the action does not wait for it: whatever the
    process does (its status and output are never looked at), the action
    prints that Tor is starting, sleeps 10 seconds and reports that Tor
    started. *)
Theorem torwin_start_tor_assumes_success :
  forall (w : World) (m : machine),
    (spawn w (trace m) [Torwin.tor_exe] = None ->
     Torwin.start_tor w m = (Raise (OSError Torwin.tor_exe), m))
    /\
    (forall (rc : Z) (out : string),
       spawn w (trace m) [Torwin.tor_exe] = Some (rc, out) ->
       Torwin.start_tor w m
       = (Ok tt, logs [ Popen [Torwin.tor_exe];
                        Print "Starting Tor..." (Some yellow);
                        Sleep 10;
                        Print "Tor started." (Some green) ] m)).
Proof.
  intros w m. split.
  - intros Hspawn. unfold Torwin.start_tor.
    unfold bind at 1. unfold subprocess_Popen. now rewrite Hspawn.
  - intros rc out Hspawn. unfold Torwin.start_tor, print_colored, sleep.
    unfold bind at 1. unfold subprocess_Popen. rewrite Hspawn, log_logs.
    unfold bind. now rewrite !emit_logs, !logs_logs.
Qed.

(** ** The redraw *)

Lemma entries_drawn_length (row : Z) (items : list string) :
  forall idx, List.length (entries_drawn row idx items) = List.length items.
Proof.
  induction items as [|item items IH]; intros idx; simpl; [reflexivity|].
  now rewrite IH.
Qed.

Lemma entries_drawn_nth (row : Z) (items : list string) :
  forall idx k item,
    nth_error items k = Some item ->
    nth_error (entries_drawn row idx items) k
    = Some (Addstr (idx + Z.of_nat k + 2) 0 item
              (if idx + Z.of_nat k =? row then color_pair 1 else 0)).
Proof.
  induction items as [|first items IH]; intros idx [|k] item H;
    try discriminate.
  - injection H as ->. cbn [entries_drawn nth_error].
    change (Z.of_nat 0) with 0. now rewrite Z.add_0_r.
  - cbn [entries_drawn nth_error] in H |- *.
    rewrite (IH (idx + 1) k item H).
    replace (idx + 1 + Z.of_nat k) with (idx + Z.of_nat (S k)) by lia.
    reflexivity.
Qed.

Lemma entries_drawn_highlighted (row : Z) (items : list string) :
  forall idx,
    List.length (filter highlighted (entries_drawn row idx items))
    = if (idx <=? row) && (row <? idx + Z.of_nat (List.length items))
      then 1%nat else 0%nat.
Proof.
  induction items as [|item items IH]; intros idx.
  - cbn [entries_drawn filter List.length]. change (Z.of_nat 0) with 0.
    destruct (Z.leb_spec idx row), (Z.ltb_spec row (idx + 0));
      simpl; reflexivity || lia.
  - cbn [entries_drawn filter highlighted].
    destruct (Z.eqb_spec idx row) as [-> | Hne].
    + rewrite Z.eqb_refl. cbn [List.length]. rewrite IH.
      destruct (Z.leb_spec (row + 1) row); [lia|].
      destruct (Z.leb_spec row row); [|lia].
      destruct (Z.ltb_spec row (row + Z.of_nat (S (List.length items))));
        [reflexivity | lia].
    + change (0 =? color_pair 1) with false. cbn iota. rewrite IH.
      cbn [List.length].
      destruct (Z.leb_spec (idx + 1) row), (Z.leb_spec idx row),
               (Z.ltb_spec row (idx + 1 + Z.of_nat (List.length items))),
               (Z.ltb_spec row (idx + Z.of_nat (S (List.length items))));
        simpl; reflexivity || lia.
Qed.

(** Every redraw shows the whole menu: after the two header lines each
    entry is drawn once, entry [k] on screen line [k + 2], in menu order,
    and the entry at [current_row] is the only one drawn with colour pair
    1.  A [current_row] outside the menu would highlight nothing. *)
Theorem render_highlights_selection :
  forall (v : variant) (row : Z) (w : World) (m : machine),
    exists lines,
      render v (Some row) w m
      = (Ok tt, logs (header_drawn ++ lines ++ [Refresh]) m) /\
      List.length lines = List.length (menu v) /\
      (forall k item,
         nth_error (menu v) k = Some item ->
         nth_error lines k
         = Some (Addstr (Z.of_nat k + 2) 0 item
                   (if Z.of_nat k =? row then color_pair 1 else 0))) /\
      List.length (filter highlighted lines)
      = if (0 <=? row) && (row <? entryCount v) then 1%nat else 0%nat.
Proof.
  intros v row w m. exists (entries_drawn row 0 (menu v)).
  split; [apply render_bound|].
  split; [apply entries_drawn_length|].
  split.
  - intros k item H. now rewrite (entries_drawn_nth row (menu v) 0 k item H).
  - now rewrite entries_drawn_highlighted.
Qed.

(** Install Proxifier, a function of [torwin.py] that no menu entry calls:
    when it returns, the body the server sent for the installer was
    written to ProxifierSetup.exe, every chunk of it, so the file holds
    exactly that body; that same file was then run with /silent, once;
    and success is reported whatever status [rc] it exited with. *)
Theorem install_proxifier_completed :
  forall (w : World) (m m' : machine),
    Torwin.install_proxifier w m = (Ok tt, m') ->
    exists chunks rc out,
      let m1 := logs [Print "Downloading Proxifier..." (Some yellow)] m in
      let m2 := logs (downloaded Torwin.PROXIFIER_URL Torwin.PROXIFIER_PATH chunks
                      ++ [Print "Installing Proxifier..." (Some yellow)]) m1 in
      fetch w (trace m1) Torwin.PROXIFIER_URL = Some chunks /\
      spawn w (trace m2) [Torwin.PROXIFIER_PATH; "/silent"] = Some (rc, out) /\
      file_content Torwin.PROXIFIER_PATH (trace m2) = Some (joined chunks) /\
      m' = logs [ Run [Torwin.PROXIFIER_PATH; "/silent"] rc;
                  Print "Proxifier installation complete." (Some green) ] m2 /\
      file_content Torwin.PROXIFIER_PATH (trace m') = Some (joined chunks).
Proof.
  intros w m m' H. unfold Torwin.install_proxifier, print_colored in H.
  unfold bind at 1 in H. rewrite emit_logs in H.
  unfold bind at 1 in H.
  destruct (download_file_shape Torwin.PROXIFIER_URL Torwin.PROXIFIER_PATH w
              (logs [Print "Downloading Proxifier..." (Some yellow)] m))
    as [[_ Hd] | (chunks & Hfetch
                  & [Hd | [Hd | [(wr & c & l & _ & Hd) | (wr & l & _ & Hd)]]])];
    rewrite Hd in H; try discriminate.
  unfold bind at 1 in H. rewrite emit_logs, logs_logs in H.
  unfold bind at 1 in H. unfold subprocess_run in H.
  destruct (spawn w _ Torwin.proxifier_setup) as [[rc out]|] eqn:Hspawn;
    [|discriminate].
  cbn [andb] in H. rewrite emit_logs, log_logs, !logs_logs in H.
  injection H as Hm'. exists chunks, rc, out. cbv zeta.
  pose proof (content_after_download Torwin.PROXIFIER_URL Torwin.PROXIFIER_PATH
                chunks (logs [Print "Downloading Proxifier..." (Some yellow)] m))
    as Hheld.
  cbn [logs trace] in Hheld.
  assert (file_content Torwin.PROXIFIER_PATH
            (trace (logs (downloaded Torwin.PROXIFIER_URL Torwin.PROXIFIER_PATH chunks
                          ++ [Print "Installing Proxifier..." (Some yellow)])
                      (logs [Print "Downloading Proxifier..." (Some yellow)] m)))
          = Some (joined chunks)) as Hheld2.
  { cbn [logs trace]. now rewrite app_assoc, file_content_app, Hheld. }
  assert (m' = logs [ Run [Torwin.PROXIFIER_PATH; "/silent"] rc;
                      Print "Proxifier installation complete." (Some green) ]
                 (logs (downloaded Torwin.PROXIFIER_URL Torwin.PROXIFIER_PATH chunks
                        ++ [Print "Installing Proxifier..." (Some yellow)])
                    (logs [Print "Downloading Proxifier..." (Some yellow)] m)))
    as Hfinal.
  { rewrite <- Hm'. now rewrite !logs_logs, <- ?app_assoc. }
  repeat split; try assumption.
  rewrite Hfinal. cbn [logs trace] in Hheld2 |- *.
  now rewrite file_content_app, Hheld2.
Qed.

(** ** The further properties at concrete inputs *)

Lemma navigation_runs_no_action_witness :
  menu_loop Windows (Some 0) ([KEY_DOWN; 113; KEY_UP] ++ [10]) (exiting 3 "") boot
  = menu_loop Windows (Some (fold_left (move Windows) [KEY_DOWN; 113; KEY_UP] 0))
      [10] (exiting 3 "") (logs (nav_events Windows 0 [KEY_DOWN; 113; KEY_UP]) boot)
  /\ 0 <= fold_left (move Windows) [KEY_DOWN; 113; KEY_UP] 0
     <= entryCount Windows - 1.
Proof.
  apply (navigation_runs_no_action Windows [KEY_DOWN; 113; KEY_UP] 0 [10]
           (exiting 3 "") boot).
  - change (entryCount Windows) with 6. lia.
  - reflexivity.
Defined.

Lemma repeated_arrows_saturate_witness :
  menu_loop Linux (Some 2) (repeat KEY_DOWN 7 ++ [113]) calm boot
  = menu_loop Linux (Some (Z.min (entryCount Linux - 1) (2 + Z.of_nat 7))) [113]
      calm (logs (nav_events Linux 2 (repeat KEY_DOWN 7)) boot)
  /\
  menu_loop Linux (Some 2) (repeat KEY_UP 7 ++ [113]) calm boot
  = menu_loop Linux (Some (Z.max 0 (2 - Z.of_nat 7))) [113]
      calm (logs (nav_events Linux 2 (repeat KEY_UP 7)) boot).
Proof.
  apply (repeated_arrows_saturate Linux 2 7 [113] calm boot).
  change (entryCount Linux) with 6. lia.
Defined.

Lemma exit_always_reachable_witness :
  menu_loop Windows (Some 1) (repeat KEY_DOWN 9 ++ 13 :: [KEY_UP]) offline boot
  = (Ok (Returned [KEY_UP]),
     logs (nav_events Windows 1 (repeat KEY_DOWN 9)
           ++ drawn Windows (entryCount Windows - 1) ++ [Getch 13]) boot).
Proof.
  apply (exit_always_reachable Windows 1 9 13 [KEY_UP] offline boot).
  - change (entryCount Windows) with 6. lia.
  - change (entryCount Windows) with 6. lia.
  - reflexivity.
Defined.

Lemma returns_only_by_select_on_exit_witness :
  exists history key m1,
    [KEY_UP; KEY_DOWN; 10; KEY_DOWN] = (history ++ key :: [KEY_DOWN])%list /\
    is_select key = true /\
    menu_loop Windows (Some 5) history calm boot
    = (Ok (AwaitingKey (Some (entryCount Windows - 1))), m1) /\
    snd (menu_loop Windows (Some 5) [KEY_UP; KEY_DOWN; 10; KEY_DOWN] calm boot)
    = logs [Getch key] m1.
Proof.
  apply (returns_only_by_select_on_exit Windows [KEY_UP; KEY_DOWN; 10; KEY_DOWN]
           5 calm boot [KEY_DOWN]).
  reflexivity.
Defined.

(** A body of one chunk is stored. *)
Lemma download_file_stores_body_witness :
  exists chunks,
    fetch calm (trace boot) Torwin.TOR_URL = Some chunks /\
    logs (downloaded Torwin.TOR_URL Torwin.TOR_ZIP_PATH ["PK"]) boot
    = logs (downloaded Torwin.TOR_URL Torwin.TOR_ZIP_PATH chunks) boot /\
    file_content Torwin.TOR_ZIP_PATH
      (trace (logs (downloaded Torwin.TOR_URL Torwin.TOR_ZIP_PATH ["PK"]) boot))
    = Some (joined chunks).
Proof.
  apply (download_file_stores_body Torwin.TOR_URL Torwin.TOR_ZIP_PATH calm boot).
  reflexivity.
Defined.


(** The disk fills up after the first of two chunks: the same state of
    the file, with [OSError]. *)
Lemma download_file_disk_full :
  Torwin.download_file Torwin.TOR_URL Torwin.TOR_ZIP_PATH short_disk boot
  = (Raise (OSError Torwin.TOR_ZIP_PATH),
     logs (downloaded Torwin.TOR_URL Torwin.TOR_ZIP_PATH ["PK"]) boot).
Proof. reflexivity. Qed.

Lemma install_tor_completed_witness :
  Torwin.install_tor calm boot = (Ok tt, snd (Torwin.install_tor calm boot)) /\
  snd (Torwin.install_tor calm boot)
  = logs ([Print "Downloading Tor..." (Some yellow)]
          ++ downloaded Torwin.TOR_URL Torwin.TOR_ZIP_PATH ["PK"]
          ++ [ Print "Extracting Tor..." (Some yellow);
               ExtractAll Torwin.TOR_ZIP_PATH Torwin.TOR_INSTALL_PATH;
               Print "Tor installation complete." (Some green) ]) boot /\
  file_content Torwin.TOR_ZIP_PATH (trace (snd (Torwin.install_tor calm boot)))
  = Some "PK".
Proof.
  assert (Torwin.install_tor calm boot = (Ok tt, snd (Torwin.install_tor calm boot)))
    as Hrun by reflexivity.
  split; [exact Hrun|].
  destruct (install_tor_completed calm boot _ Hrun) as (chunks & Hfetch & Hm & Hheld).
  change (Some ["PK"] = Some chunks) in Hfetch. injection Hfetch as <-.
  split; [exact Hm | exact Hheld].
Defined.

(** Configure run twice: the file holds the template once. *)
Lemma configure_overwrites_file_witness :
  file_content Torlinux.conf_path
    (trace (snd (Torlinux.configure_proxychains calm
                   (snd (Torlinux.configure_proxychains calm boot)))))
  = Some Torlinux.proxychains_conf.
Proof.
  apply (configure_overwrites_file calm
           (snd (Torlinux.configure_proxychains calm boot))).
  reflexivity.
Defined.


(** Start of [torlinux.py] with systemctl exiting 0. *)
Lemma torlinux_completed_actions_witness :
  (2 = 0 \/ 2 = 2 \/ 2 = 3) /\
  snd (bound_action Linux 2 calm boot) = logs (torlinux_completed 2) boot.
Proof.
  assert (2 = 0 \/ 2 = 2 \/ 2 = 3) as Hi by tauto.
  split; [exact Hi|].
  apply (torlinux_completed_actions 2 calm boot _ Hi). reflexivity.
Defined.

(** tor.exe starts and exits with status 1 at once: Start still reports
    that Tor started. *)
Lemma torwin_start_tor_assumes_success_witness :
  Torwin.start_tor (exiting 1 "") boot
  = (Ok tt, logs [ Popen [Torwin.tor_exe];
                   Print "Starting Tor..." (Some yellow);
                   Sleep 10;
                   Print "Tor started." (Some green) ] boot).
Proof.
  destruct (torwin_start_tor_assumes_success (exiting 1 "") boot) as [_ Hstart].
  apply (Hstart 1 ""). reflexivity.
Defined.

Lemma install_proxifier_completed_witness :
  Torwin.install_proxifier (exiting 1 "") boot
  = (Ok tt, snd (Torwin.install_proxifier (exiting 1 "") boot)) /\
  snd (Torwin.install_proxifier (exiting 1 "") boot)
  = logs [ Run [Torwin.PROXIFIER_PATH; "/silent"] 1;
           Print "Proxifier installation complete." (Some green) ]
      (logs (downloaded Torwin.PROXIFIER_URL Torwin.PROXIFIER_PATH ["PK"]
             ++ [Print "Installing Proxifier..." (Some yellow)])
         (logs [Print "Downloading Proxifier..." (Some yellow)] boot)) /\
  file_content Torwin.PROXIFIER_PATH
    (trace (snd (Torwin.install_proxifier (exiting 1 "") boot)))
  = Some "PK".
Proof.
  assert (Torwin.install_proxifier (exiting 1 "") boot
          = (Ok tt, snd (Torwin.install_proxifier (exiting 1 "") boot)))
    as Hrun by reflexivity.
  split; [exact Hrun|].
  pose proof (install_proxifier_completed (exiting 1 "") boot _ Hrun) as H.
  cbv zeta in H.
  destruct H as (chunks & rc & out & Hfetch & Hspawn & _ & Hm & Hheld).
  change (Some ["PK"] = Some chunks) in Hfetch. injection Hfetch as <-.
  change (Some (1, "") = Some (rc, out)) in Hspawn. injection Hspawn as <- <-.
  split; [exact Hm | exact Hheld].
Defined.
